(** * dynamic_rnn.ipynb: the toy sequence generator, the cyclic batch
      reader and the last-relevant-output gather

    The notebook holds three pieces of logic:
    - [ToySequenceData.__init__], which fills three parallel lists with
      padded sequences, one-hot labels and true lengths, drawing from
      Python's [random] module;
    - [ToySequenceData.next], which serves consecutive slices of those
      lists and keeps a cursor [batch_id];
    - the end of [dynamicRNN], which picks for every sequence of a batch the
      output of its last valid timestep by a gather over the flattened
      outputs.

    Python integers are [Z]; Python floats are IEEE binary64 values of
    [SpecFloat] (53 bits of precision, exponent bound 1024) with the
    round-to-nearest-even of that library; Python lists are [list];
    exceptions are the [Raise] case of [result]. The state of the [random]
    module is threaded through the generator by a state-and-error monad.
    TensorFlow's int32 vectors are lists of [Z] whose arithmetic wraps
    around. *)

From Stdlib Require Import ZArith List Bool Lia.
From Stdlib Require Import Floats.SpecFloat.
Import ListNotations.
Local Open Scope Z_scope.

(* ================================================================== *)
(** * Part I: definitions *)
(* ================================================================== *)

(** ** Exceptions *)

Inductive exn : Type :=
| ValueError            (* random.randint on an empty range *)
| ZeroDivisionError     (* float division by zero *)
| OverflowError         (* int too large to convert to float *)
| InvalidArgumentError. (* TensorFlow: index out of range, bad shapes *)

Inductive result (A : Type) : Type :=
| Ok (a : A)
| Raise (e : exn).

Arguments Ok {A} a.
Arguments Raise {A} e.

Definition rbind {A B : Type} (r : result A) (k : A -> result B) : result B :=
  match r with
  | Ok a => k a
  | Raise e => Raise e
  end.

Fixpoint mapR {A B : Type} (f : A -> result B) (l : list A)
  : result (list B) :=
  match l with
  | [] => Ok []
  | x :: l' => rbind (f x) (fun y => rbind (mapR f l') (fun ys => Ok (y :: ys)))
  end.

(** ** Python built-ins on lists and integers *)

Definition py_len {A : Type} (l : list A) : Z := Z.of_nat (length l).

(** [range(a, b)]: the integers [a, a+1, ..., b-1], empty when [b <= a]. *)
Definition py_range (a b : Z) : list Z :=
  map (fun k => a + Z.of_nat k) (seq 0 (Z.to_nat (b - a))).

(** Index adjustment of a slice bound (step 1): a negative bound counts
    from the end, and every bound is clipped to [0, n]. *)
Definition adjust_index (n i : Z) : Z :=
  if i <? 0 then Z.max 0 (i + n) else Z.min i n.

(** [l[lo:hi]] *)
Definition py_slice {A : Type} (l : list A) (lo hi : Z) : list A :=
  let n := py_len l in
  let a := adjust_index n lo in
  let b := adjust_index n hi in
  firstn (Z.to_nat (b - a)) (skipn (Z.to_nat a) l).

(** ** Python floats *)

Definition float : Type := spec_float.
Definition prec : Z := 53.
Definition emax : Z := 1024.

(** [float(i)] for an int [i]: the nearest binary64 value, or
    [OverflowError] when [i] is beyond the finite range. *)
Definition float_of_int (i : Z) : result float :=
  match binary_normalize prec emax i 0 false with
  | S754_infinity _ => Raise OverflowError
  | x => Ok x
  end.

Definition is_zero (x : float) : bool :=
  match x with
  | S754_zero _ => true
  | _ => false
  end.

(** [x / m] for a float [x] and an int [m]: [m] is converted first, a zero
    divisor raises. *)
Definition float_truediv (x : float) (m : Z) : result float :=
  rbind (float_of_int m) (fun y =>
    if is_zero y then Raise ZeroDivisionError else Ok (SFdiv prec emax x y)).

(** [x < y] on floats *)
Definition float_lt (x y : float) : bool := SFltb x y.

(** The literals [0.], [1.] and [.5]. *)
Definition f_zero : float := S754_zero false.
Definition f_one : float := S754_finite false 4503599627370496 (-52).
Definition f_half : float := S754_finite false 4503599627370496 (-53).

(** ** The [random] module

    The generator state is a tape of raw draws and a read position. Every
    sequence of results that [random.randint] and [random.random] can
    deliver is delivered by some tape: [randint a b] maps the next raw draw
    into [[a, b]], [random()] maps it to one of the 2^53 floats [k / 2^53]
    of [[0, 1)]. *)

Record rng : Type := mkRng { tape : nat -> Z; pos : nat }.

Definition M (A : Type) : Type := rng -> result (A * rng).

Definition ret {A : Type} (a : A) : M A := fun g => Ok (a, g).

Definition bind {A B : Type} (m : M A) (k : A -> M B) : M B :=
  fun g =>
    match m g with
    | Ok (a, g') => k a g'
    | Raise e => Raise e
    end.

Definition raise {A : Type} (e : exn) : M A := fun _ => Raise e.

Definition lift {A : Type} (r : result A) : M A :=
  fun g =>
    match r with
    | Ok a => Ok (a, g)
    | Raise e => Raise e
    end.

Notation "x <- m ;; k" := (bind m (fun x => k))
  (at level 61, m at next level, right associativity).

Definition draw : M Z :=
  fun g => Ok (tape g (pos g), mkRng (tape g) (S (pos g))).

(** [random.randint(a, b)]: an integer [n] with [a <= n <= b];
    [ValueError] on an empty range. *)
Definition randint (a b : Z) : M Z :=
  if b <? a then raise ValueError
  else r <- draw ;; ret (a + r mod (b - a + 1)).

(** [random.random()]: a float [k / 2^53] with [0 <= k < 2^53]. *)
Definition random : M float :=
  r <- draw ;; ret (binary_normalize prec emax (r mod 2 ^ 53) (-53) false).

Fixpoint mapM {A B : Type} (f : A -> M B) (l : list A) : M (list B) :=
  match l with
  | [] => ret []
  | x :: l' => y <- f x ;; ys <- mapM f l' ;; ret (y :: ys)
  end.

(** A random source that replays the raw draws of [l], then zeros. *)
Definition replay (l : list Z) : rng := mkRng (fun n => nth n l 0) 0.

(** ** class ToySequenceData *)

(** A sequence is a list of timesteps, a timestep a list of one float. *)
Definition timestep : Type := list float.
Definition sequence : Type := list timestep.
Definition label : Type := list float.

Record ToySequenceData : Type := mkToySequenceData {
  data : list sequence;
  labels : list label;
  seqlen : list Z;
  batch_id : Z
}.

Definition set_batch_id (self : ToySequenceData) (b : Z) : ToySequenceData :=
  mkToySequenceData (data self) (labels self) (seqlen self) b.

(** *** [__init__] *)

(** [[float(i)/max_value]] *)
Definition scaled (max_value i : Z) : result timestep :=
  rbind (float_of_int i) (fun x =>
  rbind (float_truediv x max_value) (fun q => Ok [q])).

(** [[[0.] for i in range(max_seq_len - len)]] *)
Definition padding (max_seq_len len : Z) : sequence :=
  map (fun _ => [f_zero]) (py_range 0 (max_seq_len - len)).

(** [[1., 0.]], class 0, and [[0., 1.]], class 1 *)
Definition label_linear : label := [f_one; f_zero].
Definition label_random : label := [f_zero; f_one].

(** One iteration of the loop of [__init__], up to the three appends: the
    drawn length, the padded sequence and the label. (The source appends
    the length before it builds the sequence; an exception in between
    leaves [__init__] and the object is never seen.) *)
Definition sample (max_seq_len min_seq_len max_value : Z)
  : M (Z * sequence * label) :=
  len <- randint min_seq_len max_seq_len ;;
  u <- random ;;
  if float_lt u f_half then
    rand_start <- randint 0 (max_value - len) ;;
    s <- mapM (fun i => lift (scaled max_value i))
              (py_range rand_start (rand_start + len)) ;;
    ret (len, s ++ padding max_seq_len len, label_linear)
  else
    s <- mapM (fun _ => r <- randint 0 max_value ;; lift (scaled max_value r))
              (py_range 0 len) ;;
    ret (len, s ++ padding max_seq_len len, label_random).

Definition append_sample (self : ToySequenceData)
  (x : Z * sequence * label) : ToySequenceData :=
  let '(len, s, l) := x in
  mkToySequenceData (data self ++ [s]) (labels self ++ [l])
                    (seqlen self ++ [len]) (batch_id self).

(** [for i in range(n): self = body(self)] *)
Fixpoint for_range (n : nat) (body : ToySequenceData -> M ToySequenceData)
  (self : ToySequenceData) : M ToySequenceData :=
  match n with
  | O => ret self
  | S n' => self' <- body self ;; for_range n' body self'
  end.

(** The body of the loop of [__init__]. *)
Definition loop_body (max_seq_len min_seq_len max_value : Z)
  (self : ToySequenceData) : M ToySequenceData :=
  x <- sample max_seq_len min_seq_len max_value ;;
  ret (append_sample self x).

Definition __init__ (n_samples max_seq_len min_seq_len max_value : Z)
  : M ToySequenceData :=
  self <- for_range (Z.to_nat n_samples)
            (loop_body max_seq_len min_seq_len max_value)
            (mkToySequenceData [] [] [] 0) ;;
  ret (set_batch_id self 0).

(** *** Observations on a run of [__init__] *)

(** The length that the iteration started in state [g] draws. *)
Definition drawn_length (max_seq_len min_seq_len : Z) (g : rng) : result Z :=
  match randint min_seq_len max_seq_len g with
  | Ok (len, _) => Ok len
  | Raise e => Raise e
  end.

(** The branch test of one iteration: the value of [random.random() < .5]
    that the iteration started in state [g] evaluates. *)
Definition takes_linear_branch (max_seq_len min_seq_len : Z) (g : rng)
  : result bool :=
  match (len <- randint min_seq_len max_seq_len ;;
         u <- random ;; ret (float_lt u f_half)) g with
  | Ok (b, _) => Ok b
  | Raise e => Raise e
  end.

(** The state of [random] when iteration [i] of the loop starts. *)
Fixpoint rng_before (i : nat) (max_seq_len min_seq_len max_value : Z)
  (g : rng) : option rng :=
  match i with
  | O => Some g
  | S i' =>
      match sample max_seq_len min_seq_len max_value g with
      | Ok (_, g') => rng_before i' max_seq_len min_seq_len max_value g'
      | Raise _ => None
      end
  end.

(** The components of what one iteration appends. *)
Definition fst3 (x : Z * sequence * label) : Z := fst (fst x).
Definition snd3 (x : Z * sequence * label) : sequence := snd (fst x).
Definition thd3 (x : Z * sequence * label) : label := snd x.

(** *** [next] *)

Definition next (self : ToySequenceData) (batch_size : Z)
  : (list sequence * list label * list Z) * ToySequenceData :=
  let self :=
    if batch_id self =? py_len (data self) then set_batch_id self 0 else self in
  let batch_data :=
    py_slice (data self) (batch_id self)
             (Z.min (batch_id self + batch_size) (py_len (data self))) in
  let batch_labels :=
    py_slice (labels self) (batch_id self)
             (Z.min (batch_id self + batch_size) (py_len (data self))) in
  let batch_seqlen :=
    py_slice (seqlen self) (batch_id self)
             (Z.min (batch_id self + batch_size) (py_len (data self))) in
  let self :=
    set_batch_id self
      (Z.min (batch_id self + batch_size) (py_len (data self))) in
  ((batch_data, batch_labels, batch_seqlen), self).

(** A run of calls to [next], one per batch size of the list. *)
Fixpoint next_calls (self : ToySequenceData) (sizes : list Z)
  : ToySequenceData :=
  match sizes with
  | [] => self
  | b :: sizes' => next_calls (snd (next self b)) sizes'
  end.

(** The sizes of the batches that such a run returns. *)
Fixpoint batch_sizes (self : ToySequenceData) (sizes : list Z) : list Z :=
  match sizes with
  | [] => []
  | b :: sizes' =>
      let '((bd, _, _), self') := next self b in
      py_len bd :: batch_sizes self' sizes'
  end.

(** ** The end of [dynamicRNN]: the last relevant output of every sequence

    [outputs] (after [tf.stack] and [tf.transpose]) is a tensor of shape
    [[batch_size, seq_max_len, n_hidden]], here a list of sequences, each a
    list of timesteps, each a list of features. [seqlen] and the index
    vector are [tf.int32] tensors: their arithmetic wraps around modulo
    2^32, and a tensor that [tf.gather] indexes by int32 has fewer than
    2^31 rows. The notebook fixes [seq_max_len = 20] and [n_hidden = 64];
    here they are parameters. *)

Definition wrap32 (z : Z) : Z := (z + 2 ^ 31) mod 2 ^ 32 - 2 ^ 31.

(** [tf.range(0, n)] *)
Definition tf_range (n : Z) : list Z := py_range 0 n.

(** [v * c] and [v - c] for an int32 vector [v] and a scalar [c] *)
Definition tf_mul_scalar (v : list Z) (c : Z) : list Z :=
  map (fun x => wrap32 (x * c)) v.

Definition tf_sub_scalar (v : list Z) (c : Z) : list Z :=
  map (fun x => wrap32 (x - c)) v.

(** [u + v] for two int32 vectors: equal lengths add pointwise, a vector of
    length one is broadcast, other shapes are incompatible. *)
Definition tf_add (u v : list Z) : result (list Z) :=
  if Nat.eqb (length u) (length v) then
    Ok (map (fun p => wrap32 (fst p + snd p)) (combine u v))
  else
    match u, v with
    | [x], _ => Ok (map (fun y => wrap32 (x + y)) v)
    | _, [y] => Ok (map (fun x => wrap32 (x + y)) u)
    | _, _ => Raise InvalidArgumentError
    end.

(** Entry [i] along the first axis; an index outside [[0, rows)] is an
    error (no wrap-around, no clipping). *)
Definition row_at {X : Type} (params : list X) (i : Z) : result X :=
  if (0 <=? i) && (i <? py_len params) then
    match nth_error params (Z.to_nat i) with
    | Some row => Ok row
    | None => Raise InvalidArgumentError
    end
  else Raise InvalidArgumentError.

Section DynamicRNN.
Context {A : Type}.
Variables seq_max_len n_hidden : Z.

Definition tensor2 : Type := list (list A).
Definition tensor3 : Type := list (list (list A)).

(** [tf.shape(t)[0]] *)
Definition tf_shape0 (t : tensor3) : Z := py_len t.

(** Rows of [w] consecutive elements of a flat buffer; [fuel] bounds the
    number of rows. *)
Fixpoint rows_of (fuel w : nat) (l : list A) : result tensor2 :=
  match l with
  | [] => Ok []
  | _ :: _ =>
      match fuel with
      | O => Raise InvalidArgumentError
      | S fuel' =>
          if Nat.ltb (length l) w then Raise InvalidArgumentError
          else rbind (rows_of fuel' w (skipn w l))
                     (fun r => Ok (firstn w l :: r))
      end
  end.

(** [tf.reshape(t, [-1, n_hidden])]: the elements in row-major order,
    regrouped in rows of [n_hidden]; the number of rows is inferred from
    the number of elements. A list of elements carries no shape, so the
    model covers row widths of at least one; a width of zero or less is
    rejected. *)
Definition tf_reshape (t : tensor3) : result tensor2 :=
  let flat := concat (concat t) in
  if n_hidden <=? 0 then Raise InvalidArgumentError
  else rows_of (length flat) (Z.to_nat n_hidden) flat.

(** [tf.gather(params, indices)] along the first axis (CPU kernel, which
    rejects an index out of range). *)
Definition tf_gather (params : tensor2) (indices : list Z)
  : result tensor2 :=
  mapR (row_at params) indices.

(** [index = tf.range(0, batch_size) * seq_max_len + (seqlen - 1)] *)
Definition index (batch_size : Z) (seqlen : list Z) : result (list Z) :=
  tf_add (tf_mul_scalar (tf_range batch_size) seq_max_len)
         (tf_sub_scalar seqlen 1).

(** The three statements of [dynamicRNN] between the transposition and
    the final matrix product. *)
Definition dynamicRNN_outputs (outputs : tensor3) (seqlen : list Z)
  : result tensor2 :=
  let batch_size := tf_shape0 outputs in
  rbind (index batch_size seqlen) (fun index =>
  rbind (tf_reshape outputs) (fun flat =>
  tf_gather flat index)).

(** Entry [b] of the index vector for true length [t]. *)
Definition flat_index (b : nat) (t : Z) : Z :=
  wrap32 (wrap32 (Z.of_nat b * seq_max_len) + wrap32 (t - 1)).

(** The direct formulation of the specification:
    [output[b] = data[b][trueLengths[b] - 1]] for every [b]. *)
Definition direct_last_timestep (outputs : tensor3) (trueLengths : list Z)
  : result tensor2 :=
  mapR (fun p => row_at (fst p) (snd p - 1)) (combine outputs trueLengths).

(** A well-shaped batch: [B] sequences of [seq_max_len] timesteps of
    [n_hidden] features. *)
Definition shape3 (B : nat) (t : tensor3) : Prop :=
  length t = B /\
  Forall (fun s => py_len s = seq_max_len /\
                   Forall (fun r => py_len r = n_hidden) s) t.

(** The flat row count is an int32: every row is addressable by the
    int32 index arithmetic of the gather. *)
Definition int32_indexable (B : nat) : Prop :=
  Z.of_nat B * seq_max_len < 2 ^ 31.

(** [B] true lengths, each in [[1, seq_max_len]]. *)
Definition valid_lengths (B : nat) (trueLengths : list Z) : Prop :=
  length trueLengths = B /\
  Forall (fun t => 1 <= t <= seq_max_len) trueLengths.

(** C5 in the words of the specification: a true length outside
    [[1, maxLen]] makes the extractor raise. *)
Definition rejects_bad_lengths (outputs : tensor3) (trueLengths : list Z)
  : Prop :=
  (exists b t, nth_error trueLengths b = Some t /\
               ~ (1 <= t <= seq_max_len)) ->
  exists e, dynamicRNN_outputs outputs trueLengths = Raise e.
End DynamicRNN.

(** ** The properties of the dataset and of the reader, as predicates *)

(** The three collections are parallel. *)
Definition parallel (self : ToySequenceData) : Prop :=
  length (labels self) = length (data self) /\
  length (seqlen self) = length (data self).

(** The cursor is a position of [[0, N]]. *)
Definition cursor_in_range (self : ToySequenceData) : Prop :=
  0 <= batch_id self <= py_len (data self).

(** One call of the batch reader, in the words of its contract: reset the
    cursor when it stands at [N], hand out the next [batch_size] items from
    there (fewer when the collection ends first), move the cursor to
    [min (cursor + batch_size) N]. *)
Definition reader_contract (self : ToySequenceData) (batch_size : Z) : Prop :=
  let N := py_len (data self) in
  let c := if batch_id self =? N then 0 else batch_id self in
  let upto {X : Type} (l : list X) :=
    firstn (Z.to_nat batch_size) (skipn (Z.to_nat c) l) in
  next self batch_size =
    ((upto (data self), upto (labels self), upto (seqlen self)),
     set_batch_id self (Z.min (c + batch_size) N)).

(** What a run of calls may change: nothing but the cursor, which stays in
    [[0, N]]. *)
Definition only_cursor_moved (self self' : ToySequenceData) : Prop :=
  data self' = data self /\
  labels self' = labels self /\
  seqlen self' = seqlen self /\
  0 <= batch_id self' <= py_len (data self).

(** A well-formed dataset of [N] items. *)
Definition well_formed (N max_seq_len min_seq_len : Z)
  (d : ToySequenceData) : Prop :=
  py_len (data d) = N /\ py_len (labels d) = N /\ py_len (seqlen d) = N /\
  forall i len s,
    nth_error (seqlen d) i = Some len ->
    nth_error (data d) i = Some s ->
    min_seq_len <= len <= max_seq_len /\
    py_len s = max_seq_len /\
    forall j x, len <= Z.of_nat j -> nth_error s j = Some x -> x = [f_zero].

(** A label over [n] classes with a single [1.] among [0.]s, at class [c]. *)
Definition one_hot_at (n c : nat) (l : label) : Prop :=
  length l = n /\ (c < n)%nat /\
  forall j, (j < n)%nat ->
    nth_error l j = Some (if Nat.eqb j c then f_one else f_zero).

Definition one_hot (n : nat) (l : label) : Prop :=
  exists c, one_hot_at n c l.






(** ** Concrete inputs *)

(** A dataset of three one-step sequences, cursor at the start. *)
Definition toy3 : ToySequenceData :=
  mkToySequenceData
    [[[f_zero]]; [[f_one]]; [[f_half]]]
    [label_linear; label_random; label_random]
    [1; 1; 1]
    0.

(** A run of the generator: two samples of at most five steps, the first
    linear (length 3, from 6/10), the second random (length 2). *)
Definition demo_tape : list Z := [1; 0; 6; 0; 2 ^ 52; 7; 8].

Definition demo_dataset : ToySequenceData :=
  Eval vm_compute in
    match __init__ 2 5 2 10 (replay demo_tape) with
    | Ok (d, _) => d
    | Raise _ => mkToySequenceData [] [] [] 0
    end.


(** The scenario of the specification for the extractor: two sequences of
    five timesteps of width one. *)
Definition scenario_outputs : list (list (list Z)) :=
  [ [[10]; [11]; [12]; [13]; [14]]; [[20]; [21]; [22]; [23]; [24]] ].

Definition scenario_lengths : list Z := [3; 1].

(** ** The callers: the training loop and the two datasets

    The training loop calls [trainset.next(batch_size)] once per step and
    feeds the three returned lists to the placeholders [x], [y] and
    [seqlen]; [trainset] and [testset] are built one after the other from
    the same [random] state. *)

Definition batch : Type := (list sequence * list label * list Z)%type.

Definition batch_x (b : batch) : list sequence := fst (fst b).
Definition batch_y (b : batch) : list label := snd (fst b).
Definition batch_seqlen (b : batch) : list Z := snd b.

(** The batches that a run of calls to [next] returns, in order. *)
Fixpoint batches (self : ToySequenceData) (sizes : list Z) : list batch :=
  match sizes with
  | [] => []
  | b :: sizes' => fst (next self b) :: batches (snd (next self b)) sizes'
  end.

(** The number of calls of size [batch_size] that it takes to reach the
    end of [N] items: [N / batch_size], rounded up. *)
Definition epoch_calls (N batch_size : Z) : nat :=
  Z.to_nat ((N + batch_size - 1) / batch_size).

(** The cursor that a call works from: [0] when the stored cursor stands at
    the end. *)
Definition start_of_call (self : ToySequenceData) : Z :=
  if batch_id self =? py_len (data self) then 0 else batch_id self.


(** Two datasets, one after the other. *)
Definition append_datasets (d1 d2 : ToySequenceData) : ToySequenceData :=
  mkToySequenceData (data d1 ++ data d2) (labels d1 ++ labels d2)
                    (seqlen d1 ++ seqlen d2) 0.

(** [trainset = ToySequenceData(n_samples=N, ...)] followed by
    [testset = ToySequenceData(n_samples=K, ...)], on the shared state of
    [random]. *)
Definition train_then_test (N K max_seq_len min_seq_len max_value : Z)
  : M (ToySequenceData * ToySequenceData) :=
  trainset <- __init__ N max_seq_len min_seq_len max_value ;;
  testset <- __init__ K max_seq_len min_seq_len max_value ;;
  ret (trainset, testset).

(** ** The whole of [dynamicRNN]

    The tensor operations around the recurrent unit, on lists: [x] of shape
    [[batch_size, seq_max_len, n_input]] is a list of sequences, each a
    list of input rows. The LSTM cell, the float 0 of its zero output and
    the final linear layer are parameters: [lstm_cell] is the cell applied
    to one row of the batch and the state of that row, [out_layer] is the
    row of [tf.matmul(outputs, weights['out']) + biases['out']] for one
    row of [outputs]. *)

(** The first entry of every row and the rest of every row; a row without
    entries is an error. *)
Fixpoint uncons_rows {A : Type} (rows : list (list A))
  : result (list A * list (list A)) :=
  match rows with
  | [] => Ok ([], [])
  | [] :: _ => Raise ValueError
  | (a :: r) :: rows' =>
      rbind (uncons_rows rows') (fun p => Ok (a :: fst p, r :: snd p))
  end.

Definition is_nil {A : Type} (l : list A) : bool :=
  match l with
  | [] => true
  | _ :: _ => false
  end.

(** [tf.unstack(t, num, 1)]: the [num] slices of [t] along its second
    axis; the length of that axis has to be [num]. *)
Fixpoint tf_unstack1 {A : Type} (num : nat) (t : list (list A))
  : result (list (list A)) :=
  match num with
  | O => if forallb is_nil t then Ok [] else Raise ValueError
  | S n =>
      rbind (uncons_rows t) (fun p =>
      rbind (tf_unstack1 n (snd p)) (fun rest => Ok (fst p :: rest)))
  end.

(** [tf.stack(l)]: the tensors of a list that is not empty, along a new
    first axis. *)
Definition tf_stack {A : Type} (l : list (list A)) : result (list (list A)) :=
  match l with
  | [] => Raise ValueError
  | _ :: _ => Ok l
  end.

(** The [B] columns of the rows of [t], each row of length [B]. *)
Fixpoint columns {A : Type} (B : nat) (t : list (list A))
  : result (list (list A)) :=
  match t with
  | [] => Ok (repeat [] B)
  | y :: t' =>
      rbind (columns B t') (fun cols =>
        if Nat.eqb (length y) (length cols)
        then Ok (map (fun p => fst p :: snd p) (combine y cols))
        else Raise InvalidArgumentError)
  end.

(** [tf.transpose(t, [1, 0, 2])]: the first two axes exchanged. *)
Definition tf_transpose10 {A : Type} (t : list (list A))
  : result (list (list A)) :=
  match t with
  | [] => Ok []
  | y :: _ => columns (length y) t
  end.

Section WholeDynamicRNN.
Context {X O S C : Type}.
Variables seq_max_len n_hidden : Z.
Variable lstm_cell : list X -> S -> list O * S.
Variable zero_state : S.
Variable zero : O.
Variable out_layer : list O -> list C.

(** A row of the zero output: [cell.output_size = n_hidden] zeros. *)
Definition zero_output : list O := repeat zero (Z.to_nat n_hidden).

(** One step of [static_rnn] at [time]: a row whose sequence has ended
    ([time >= sequence_length]) gets the zero output and keeps its state,
    the other rows get what the cell computes. *)
Definition rnn_step (time : Z) (sequence_length : list Z)
  (input_ : list (list X)) (state : list S) : list (list O) * list S :=
  split (map (fun p =>
                if fst (fst p) <=? time then (zero_output, snd p)
                else lstm_cell (snd (fst p)) (snd p))
             (combine (combine sequence_length input_) state)).

(** [for time, input_ in enumerate(inputs)] *)
Fixpoint rnn_loop (time : Z) (sequence_length : list Z)
  (inputs : list (list (list X))) (state : list S)
  : list (list (list O)) * list S :=
  match inputs with
  | [] => ([], state)
  | input_ :: inputs' =>
      let (output, state') := rnn_step time sequence_length input_ state in
      let (outputs, final) := rnn_loop (time + 1) sequence_length inputs' state'
      in (output :: outputs, final)
  end.

(** [tf.contrib.rnn.static_rnn(lstm_cell, inputs, sequence_length=...)]
    from the zero state: the outputs of every step and the final state.
    The inputs must not be empty and there is one length per row. *)
Definition static_rnn (inputs : list (list (list X)))
  (sequence_length : list Z)
  : result (list (list (list O)) * list S) :=
  match inputs with
  | [] => Raise ValueError
  | first_input :: _ =>
      if Nat.eqb (length sequence_length) (length first_input)
      then Ok (rnn_loop 0 sequence_length inputs
                 (repeat zero_state (length first_input)))
      else Raise InvalidArgumentError
  end.

Definition dynamicRNN (x : list (list (list X))) (seqlen : list Z)
  : result (list (list C)) :=
  rbind (tf_unstack1 (Z.to_nat seq_max_len) x) (fun x =>
  rbind (static_rnn x seqlen) (fun rnn =>
  rbind (tf_stack (fst rnn)) (fun outputs =>
  rbind (tf_transpose10 outputs) (fun outputs =>
  rbind (dynamicRNN_outputs seq_max_len n_hidden outputs seqlen)
        (fun outputs =>
  Ok (map out_layer outputs)))))).

(** The cell unrolled over the rows [xs] of one sequence: its outputs. *)
Fixpoint unroll (xs : list (list X)) (st : S) : list (list O) :=
  match xs with
  | [] => []
  | x :: xs' => fst (lstm_cell x st) :: unroll xs' (snd (lstm_cell x st))
  end.

(** What [static_rnn] does to one row of the batch: the steps from [time]
    on, for a sequence of true length [len]. *)
Fixpoint row_loop (time len : Z) (xs : list (list X)) (st : S)
  : list (list O) * S :=
  match xs with
  | [] => ([], st)
  | x :: xs' =>
      let now := if len <=? time then (zero_output, st) else lstm_cell x st in
      let later := row_loop (time + 1) len xs' (snd now) in
      (fst now :: fst later, snd later)
  end.
End WholeDynamicRNN.

(** A cell for examples: the state counts the steps, the output is the
    input row with the count in front. *)
Definition counting_cell (x : list Z) (st : Z) : list Z * Z :=
  ([st + 1; hd 0 x], st + 1).

Definition scenario_x : list (list (list Z)) :=
  [ [[10]; [11]; [12]]; [[20]; [21]; [22]] ].

(** The scenario batch of the extractor with every timestep but the last
    valid one of each sequence set to zero. *)
Definition scenario_zeroed : list (list (list Z)) :=
  [ [[0]; [0]; [12]; [0]; [0]]; [[20]; [0]; [0]; [0]; [0]] ].

(* ================================================================== *)
(** * Part II: the batch reader *)
(* ================================================================== *)

Section Slices.
Context {X : Type}.

Lemma adjust_index_inside (n i : Z) : 0 <= i <= n -> adjust_index n i = i.
Proof.
  intros H. unfold adjust_index.
  destruct (Z.ltb_spec i 0); lia.
Qed.

(** A slice between two positions of the list. *)
Lemma py_slice_inside (l : list X) (lo hi : Z) :
  0 <= lo <= py_len l -> 0 <= hi <= py_len l ->
  py_slice l lo hi = firstn (Z.to_nat (hi - lo)) (skipn (Z.to_nat lo) l).
Proof.
  intros Hlo Hhi. unfold py_slice.
  now rewrite !adjust_index_inside.
Qed.

(** Taking [k] items or as many as there are is taking [k] items. *)
Lemma firstn_capped (l : list X) (k m : nat) :
  m = Nat.min k (length l) -> firstn m l = firstn k l.
Proof.
  intros ->. destruct (Nat.le_gt_cases k (length l)) as [H | H].
  - now rewrite Nat.min_l.
  - rewrite Nat.min_r by lia.
    rewrite firstn_all. symmetry. apply firstn_all2. lia.
Qed.

(** The slice that [next] takes from a list of [N] items. *)
Lemma py_slice_upto (l : list X) (N c bs : Z) :
  py_len l = N -> 0 <= c <= N -> 0 <= bs ->
  py_slice l c (Z.min (c + bs) N) =
  firstn (Z.to_nat bs) (skipn (Z.to_nat c) l).
Proof.
  intros HN Hc Hbs.
  rewrite py_slice_inside by lia.
  apply firstn_capped.
  rewrite length_skipn. unfold py_len in HN. lia.
Qed.

(** An empty slice: both bounds at the same position. *)
Lemma py_slice_empty (l : list X) (c : Z) :
  0 <= c -> py_slice l c c = [].
Proof.
  intros Hc. unfold py_slice.
  now rewrite Z.sub_diag.
Qed.
End Slices.

(** The cursor that a call works from, after the reset test. *)
Lemma next_unfold (self : ToySequenceData) (bs : Z) :
  let N := py_len (data self) in
  let c := if batch_id self =? N then 0 else batch_id self in
  next self bs =
    ((py_slice (data self) c (Z.min (c + bs) N),
      py_slice (labels self) c (Z.min (c + bs) N),
      py_slice (seqlen self) c (Z.min (c + bs) N)),
     set_batch_id self (Z.min (c + bs) N)).
Proof.
  unfold next. cbv zeta.
  destruct (batch_id self =? py_len (data self)); reflexivity.
Qed.

Lemma next_frame (self : ToySequenceData) (bs : Z) :
  data (snd (next self bs)) = data self /\
  labels (snd (next self bs)) = labels self /\
  seqlen (snd (next self bs)) = seqlen self.
Proof. rewrite next_unfold. cbn. auto. Qed.

Lemma next_cursor (self : ToySequenceData) (bs : Z) :
  cursor_in_range self -> 0 <= bs ->
  0 <= batch_id (snd (next self bs)) <= py_len (data self).
Proof.
  unfold cursor_in_range. intros Hc Hbs.
  rewrite next_unfold. cbn.
  destruct (Z.eqb_spec (batch_id self) (py_len (data self))); lia.
Qed.

(** C2 (as amended): for every dataset of N items whose cursor stands in
    [0, N] and every batch size that is not negative, a call of the batch
    reader first resets the cursor to 0 if it equals N, then returns the
    slices of up to batchSize sequences, labels and true lengths that start
    at the cursor (shorter near the end, nothing is taken from the start of
    the collection), and sets the cursor to min(cursor + batchSize, N). For
    N = 10 and batchSize = 4 the successive batch sizes are 4, 4, 2 and,
    after the wrap, 4 again. *)
Theorem next_contract (self : ToySequenceData) (batch_size : Z) :
  parallel self -> cursor_in_range self -> 0 <= batch_size ->
  reader_contract self batch_size /\
  (py_len (data self) = 10 -> batch_id self = 0 ->
   batch_sizes self [4; 4; 4; 4] = [4; 4; 2; 4]).
Proof.
  intros [Hl Hs] Hc Hbs. split.
  - unfold reader_contract, cursor_in_range in *. cbv zeta.
    rewrite next_unfold. cbv zeta.
    set (N := py_len (data self)) in *.
    set (c := if batch_id self =? N then 0 else batch_id self).
    assert (Hc' : 0 <= c <= N).
    { subst c. destruct (Z.eqb_spec (batch_id self) N); lia. }
    rewrite !(py_slice_upto _ N) by (unfold py_len in *; lia).
    reflexivity.
  - clear. destruct self as [d l s b]. cbn. intros HN Hb. subst b.
    unfold py_len in HN.
    assert (Hlen : length d = 10%nat) by lia. clear HN.
    do 11 (destruct d as [| ? d]; try discriminate Hlen).
    reflexivity.
Qed.

(** The amended contract at work: a first batch of two from [toy3]. *)
Lemma next_contract_witness :
  parallel toy3 /\ cursor_in_range toy3 /\ 0 <= 2 /\
  reader_contract toy3 2.
Proof.
  assert (Hp : parallel toy3) by (split; reflexivity).
  assert (Hc : cursor_in_range toy3) by (unfold cursor_in_range; cbn; lia).
  assert (Hb : 0 <= 2) by lia.
  split; [exact Hp |]. split; [exact Hc |]. split; [exact Hb |].
  exact (proj1 (next_contract toy3 2 Hp Hc Hb)).
Defined.

(** C2 fails as stated for a negative batch size: on the three-item dataset
    [toy3] with the cursor at 0, [next (-1)] returns the slice [data[0:-1]]
    of two items, not a slice of up to -1 items. *)
Lemma next_contract_negative_size :
  parallel toy3 /\ cursor_in_range toy3 /\ ~ reader_contract toy3 (-1).
Proof.
  split; [split; reflexivity |].
  split; [unfold cursor_in_range; cbn; lia |].
  unfold reader_contract. cbv zeta. intros H.
  apply (f_equal (fun r => length (fst (fst (fst r))))) in H.
  vm_compute in H. discriminate H.
Qed.

Lemma next_calls_data (sizes : list Z) :
  forall self,
    data (next_calls self sizes) = data self /\
    labels (next_calls self sizes) = labels self /\
    seqlen (next_calls self sizes) = seqlen self.
Proof.
  induction sizes as [| b sizes IH]; intros self.
  - cbn. auto.
  - change (next_calls self (b :: sizes))
      with (next_calls (snd (next self b)) sizes).
    destruct (IH (snd (next self b))) as (Hd & Hl & Hq).
    destruct (next_frame self b) as (Hd' & Hl' & Hq').
    rewrite Hd, Hl, Hq. auto.
Qed.

(** C9 (as amended): for every dataset and every sequence of batch-reader
    calls after construction, the stored sequences, labels and true lengths
    are never modified, each call mutates only the cursor; and when the
    batch sizes of the calls are not negative (the cursor starting in
    [0, N]: it is 0 after construction), the cursor lies in [0, N] after
    every call. Every prefix of a run is a run, so what holds at the end of
    every run holds after every call. *)
Theorem next_calls_frame (self : ToySequenceData) (sizes : list Z) :
  cursor_in_range self ->
  data (next_calls self sizes) = data self /\
  labels (next_calls self sizes) = labels self /\
  seqlen (next_calls self sizes) = seqlen self /\
  (Forall (fun b => 0 <= b) sizes ->
   only_cursor_moved self (next_calls self sizes)).
Proof.
  intros Hc.
  destruct (next_calls_data sizes self) as (Hd & Hl & Hq).
  split; [exact Hd |]. split; [exact Hl |]. split; [exact Hq |].
  clear Hd Hl Hq. revert self Hc.
  induction sizes as [| b sizes IH]; intros self Hc Hs.
  - unfold only_cursor_moved, cursor_in_range in *. cbn. auto.
  - change (next_calls self (b :: sizes))
      with (next_calls (snd (next self b)) sizes).
    inversion Hs as [| ? ? Hb Hs']; subst.
    destruct (next_frame self b) as (Hd & Hl & Hq).
    pose proof (next_cursor self b Hc Hb) as Hc'.
    assert (Hr : cursor_in_range (snd (next self b))).
    { unfold cursor_in_range. now rewrite Hd. }
    destruct (IH _ Hr Hs') as (Hd' & Hl' & Hq' & Hb').
    unfold only_cursor_moved.
    rewrite Hd', Hl', Hq', Hd, Hl, Hq.
    rewrite Hd in Hb'. auto.
Qed.

Lemma next_calls_frame_witness :
  cursor_in_range toy3 /\ Forall (fun b => 0 <= b) [2; 2; 0; 5] /\
  only_cursor_moved toy3 (next_calls toy3 [2; 2; 0; 5]).
Proof.
  assert (Hc : cursor_in_range toy3) by (unfold cursor_in_range; cbn; lia).
  assert (Hs : Forall (fun b => 0 <= b) [2; 2; 0; 5])
    by (repeat constructor; lia).
  split; [exact Hc |]. split; [exact Hs |].
  destruct (next_calls_frame toy3 [2; 2; 0; 5] Hc) as (_ & _ & _ & H).
  exact (H Hs).
Defined.

(** C9 fails as stated when a call passes a negative batch size: from the
    fresh dataset [toy3] (cursor 0, N = 3) the single call [next (-1)]
    leaves the cursor at min(0 - 1, 3) = -1, outside [0, N]. *)
Lemma next_calls_negative_size :
  batch_id toy3 = 0 /\ ~ only_cursor_moved toy3 (next_calls toy3 [-1]).
Proof.
  split; [reflexivity |].
  intros (_ & _ & _ & H). vm_compute in H.
  destruct H as [H _]. now apply H.
Qed.

(** C10: on a dataset with N > 0 and the cursor at p, 0 <= p < N, a call
    with batch size 0 returns three empty slices and leaves the dataset,
    cursor included, as it was; hence any number of such calls leaves the
    cursor at p, short of N, and no reset takes place. *)
Theorem next_zero_size (self : ToySequenceData) (p : Z) :
  0 < py_len (data self) ->
  0 <= p < py_len (data self) ->
  batch_id self = p ->
  next self 0 = (([], [], []), self) /\
  forall k, next_calls self (repeat 0 k) = self /\
            batch_id (next_calls self (repeat 0 k)) = p.
Proof.
  intros HN Hp Hb.
  assert (Hnext : next self 0 = (([], [], []), self)).
  { rewrite next_unfold. cbv zeta.
    destruct (Z.eqb_spec (batch_id self) (py_len (data self))); [lia |].
    rewrite Z.add_0_r, Z.min_l by lia.
    rewrite !py_slice_empty by lia.
    destruct self; reflexivity. }
  split; [exact Hnext |].
  induction k as [| k IH].
  - cbn. auto.
  - change (repeat 0 (S k)) with (0 :: repeat 0 k).
    change (next_calls self (0 :: repeat 0 k))
      with (next_calls (snd (next self 0)) (repeat 0 k)).
    rewrite Hnext. exact IH.
Qed.

Lemma next_zero_size_witness :
  0 < py_len (data toy3) /\ 0 <= 0 < py_len (data toy3) /\
  batch_id toy3 = 0 /\
  next toy3 0 = (([], [], []), toy3).
Proof.
  assert (HN : 0 < py_len (data toy3)) by (cbn; lia).
  assert (Hp : 0 <= 0 < py_len (data toy3)) by (cbn; lia).
  split; [exact HN |]. split; [exact Hp |]. split; [reflexivity |].
  exact (proj1 (next_zero_size toy3 0 HN Hp eq_refl)).
Defined.

(* ================================================================== *)
(** * Part III: the generator *)
(* ================================================================== *)

(** ** Inversion of the monadic steps *)

Lemma bind_Ok {A B : Type} (m : M A) (k : A -> M B) g b g' :
  bind m k g = Ok (b, g') ->
  exists a g1, m g = Ok (a, g1) /\ k a g1 = Ok (b, g').
Proof.
  unfold bind. destruct (m g) as [[a g1] | e]; [| discriminate].
  intros H. now exists a, g1.
Qed.

Lemma ret_Ok {A : Type} (a b : A) g g' :
  ret a g = Ok (b, g') -> b = a /\ g' = g.
Proof. unfold ret. intros H; inversion H; auto. Qed.

Lemma lift_Ok {A : Type} (r : result A) a g g' :
  lift r g = Ok (a, g') -> r = Ok a /\ g' = g.
Proof.
  unfold lift. destruct r; [| discriminate].
  intros H; inversion H; auto.
Qed.

Lemma randint_Ok a b g n g' :
  randint a b g = Ok (n, g') -> a <= n <= b.
Proof.
  unfold randint. destruct (Z.ltb_spec b a) as [Hlt | Hle].
  - discriminate.
  - intros H. apply bind_Ok in H. destruct H as (r & g1 & _ & H).
    apply ret_Ok in H. destruct H as [-> _].
    pose proof (Z.mod_pos_bound r (b - a + 1)). lia.
Qed.

Lemma randint_empty a b g : b < a -> randint a b g = Raise ValueError.
Proof.
  intros H. unfold randint.
  destruct (Z.ltb_spec b a); [reflexivity | lia].
Qed.

(** Peel the binds of a successful run, one hypothesis per step. *)
Ltac unbind H :=
  repeat match type of H with
         | bind _ _ _ = Ok _ =>
             let a := fresh "a" in
             let g := fresh "g" in
             let Hm := fresh "Hstep" in
             apply bind_Ok in H; destruct H as (a & g & Hm & H)
         end.

Lemma mapM_Ok {A B : Type} (f : A -> M B) (l : list A) :
  forall g ys g',
    mapM f l g = Ok (ys, g') ->
    Forall2 (fun x y => exists g1 g2, f x g1 = Ok (y, g2)) l ys.
Proof.
  induction l as [| x l IH]; intros g ys g' H; cbn in H.
  - apply ret_Ok in H. destruct H as [-> _]. constructor.
  - unbind H. apply ret_Ok in H. destruct H as [-> _].
    constructor; eauto.
Qed.

(** ** Ranges *)

Lemma py_range_length a b : length (py_range a b) = Z.to_nat (b - a).
Proof. unfold py_range. now rewrite length_map, length_seq. Qed.

Lemma py_range_nth a b k :
  (k < Z.to_nat (b - a))%nat ->
  nth_error (py_range a b) k = Some (a + Z.of_nat k).
Proof.
  intros Hk. unfold py_range.
  rewrite nth_error_map, nth_error_seq.
  destruct (Nat.ltb_spec k (Z.to_nat (b - a))); [reflexivity | lia].
Qed.


Lemma padding_length maxLen len :
  length (padding maxLen len) = Z.to_nat (maxLen - len).
Proof.
  unfold padding. rewrite length_map, py_range_length. f_equal. lia.
Qed.

Lemma padding_zero maxLen len x : In x (padding maxLen len) -> x = [f_zero].
Proof.
  unfold padding. rewrite in_map_iff. now intros (? & <- & _).
Qed.

(** ** Lists related pointwise *)

Lemma Forall2_length_eq {A B : Type} (R : A -> B -> Prop) l l' :
  Forall2 R l l' -> length l = length l'.
Proof. induction 1; cbn; congruence. Qed.

Lemma Forall2_nth {A B : Type} (R : A -> B -> Prop) l l' :
  Forall2 R l l' ->
  forall k x, nth_error l k = Some x ->
              exists y, nth_error l' k = Some y /\ R x y.
Proof.
  induction 1 as [| a b l l' Hab _ IH]; intros k x Hk.
  - destruct k; discriminate.
  - destruct k as [| k]; cbn in *.
    + inversion Hk; subst. eauto.
    + eauto.
Qed.

Lemma Forall2_right {A B : Type} (R : A -> B -> Prop) (P : B -> Prop) l l' :
  Forall2 R l l' -> (forall x y, R x y -> P y) -> Forall P l'.
Proof. induction 1; intros HP; constructor; eauto. Qed.

(** ** One iteration *)

Lemma scaled_Ok max_value i v :
  scaled max_value i = Ok v -> exists q, v = [q].
Proof.
  unfold scaled, rbind.
  destruct (float_of_int i); [| discriminate].
  destruct (float_truediv _ _); [| discriminate].
  intros H; inversion H. eauto.
Qed.

Lemma branch_of_steps maxLen minLen g len g1 u g2 :
  randint minLen maxLen g = Ok (len, g1) ->
  random g1 = Ok (u, g2) ->
  takes_linear_branch maxLen minLen g = Ok (float_lt u f_half).
Proof.
  intros H1 H2. unfold takes_linear_branch, bind. now rewrite H1, H2.
Qed.

(** What a successful iteration has drawn and built. *)
Lemma sample_Ok maxLen minLen maxValue g len s l g' :
  sample maxLen minLen maxValue g = Ok ((len, s, l), g') ->
  minLen <= len <= maxLen /\
  drawn_length maxLen minLen g = Ok len /\
  exists vals,
    s = vals ++ padding maxLen len /\
    length vals = Z.to_nat len /\
    ((takes_linear_branch maxLen minLen g = Ok true /\
      l = label_linear /\
      exists start,
        0 <= start <= maxValue - len /\
        forall k, (k < Z.to_nat len)%nat ->
          exists v, nth_error vals k = Some v /\
                    scaled maxValue (start + Z.of_nat k) = Ok v)
     \/
     (takes_linear_branch maxLen minLen g = Ok false /\
      l = label_random /\
      Forall (fun v => exists r, 0 <= r <= maxValue /\
                                 scaled maxValue r = Ok v) vals)).
Proof.
  intros H. unfold sample in H.
  apply bind_Ok in H. destruct H as (len0 & g1 & Hlen & H).
  apply bind_Ok in H. destruct H as (u & g2 & Hu & H).
  pose proof (branch_of_steps _ _ _ _ _ _ _ Hlen Hu) as Hbranch.
  pose proof (randint_Ok _ _ _ _ _ Hlen) as Hrange.
  assert (Hdrawn : drawn_length maxLen minLen g = Ok len0)
    by (unfold drawn_length; now rewrite Hlen).
  destruct (float_lt u f_half).
  - apply bind_Ok in H. destruct H as (start & g3 & Hstart & H).
    apply bind_Ok in H. destruct H as (vals & g4 & Hvals & H).
    apply ret_Ok in H. destruct H as [H _]. injection H as -> -> ->.
    apply mapM_Ok in Hvals.
    pose proof (Forall2_length_eq _ _ _ Hvals) as Hl.
    rewrite py_range_length, Z.add_simpl_l in Hl.
    split; [exact Hrange |]. split; [exact Hdrawn |].
    exists vals. split; [reflexivity |]. split; [now symmetry |].
    left. split; [exact Hbranch |]. split; [reflexivity |].
    exists start. split; [exact (randint_Ok _ _ _ _ _ Hstart) |].
    intros k Hk.
    assert (Hnth : nth_error (py_range start (start + len0)) k
                   = Some (start + Z.of_nat k))
      by (apply py_range_nth; lia).
    destruct (Forall2_nth _ _ _ Hvals _ _ Hnth) as (v & Hv & g5 & g6 & Hs).
    apply lift_Ok in Hs. destruct Hs as [Hs _]. eauto.
  - apply bind_Ok in H. destruct H as (vals & g4 & Hvals & H).
    apply ret_Ok in H. destruct H as [H _]. injection H as -> -> ->.
    apply mapM_Ok in Hvals.
    pose proof (Forall2_length_eq _ _ _ Hvals) as Hl.
    rewrite py_range_length, Z.sub_0_r in Hl.
    split; [exact Hrange |]. split; [exact Hdrawn |].
    exists vals. split; [reflexivity |]. split; [now symmetry |].
    right. split; [exact Hbranch |]. split; [reflexivity |].
    apply (Forall2_right _ _ _ _ Hvals).
    intros x y (g5 & g6 & Hy).
    apply bind_Ok in Hy. destruct Hy as (r & g7 & Hr & Hy).
    apply lift_Ok in Hy. destruct Hy as [Hy _].
    exists r. split; [exact (randint_Ok _ _ _ _ _ Hr) | exact Hy].
Qed.

(** ** The loop *)

Section Loop.
Variables maxLen minLen maxValue : Z.

Local Abbreviation body := (loop_body maxLen minLen maxValue).
Local Abbreviation before i := (rng_before i maxLen minLen maxValue).
Local Abbreviation one := (sample maxLen minLen maxValue).

(** A loop that returns has appended one sample per iteration, each
    built by [sample] from the state that [rng_before] reaches. *)
Lemma for_range_Ok (n : nat) :
  forall self g self' g',
    for_range n body self g = Ok (self', g') ->
    exists samples,
      length samples = n /\
      seqlen self' = seqlen self ++ map fst3 samples /\
      data self' = data self ++ map snd3 samples /\
      labels self' = labels self ++ map thd3 samples /\
      batch_id self' = batch_id self /\
      forall i x, nth_error samples i = Some x ->
        exists gi gi', before i g = Some gi /\ one gi = Ok (x, gi').
Proof.
  induction n as [| n IH]; intros self g self' g' H; cbn in H.
  - apply ret_Ok in H. destruct H as [-> _].
    exists []. cbn. rewrite !app_nil_r.
    repeat split; try reflexivity.
    intros [| i] x Hx; discriminate.
  - apply bind_Ok in H. destruct H as (self1 & g1 & Hbody & H).
    unfold body, loop_body in Hbody.
    apply bind_Ok in Hbody. destruct Hbody as (x & g2 & Hx & Hret).
    apply ret_Ok in Hret. destruct Hret as [-> ->].
    destruct (IH _ _ _ _ H) as (samples & Hn & Hs & Hd & Hl & Hb & Hnth).
    exists (x :: samples).
    destruct x as [[len s] l]. cbn in Hs, Hd, Hl, Hb.
    rewrite <- app_assoc in Hs, Hd, Hl.
    split; [cbn; congruence |].
    repeat (split; [assumption |]).
    intros [| i] y Hy; cbn in Hy.
    + injection Hy as <-. exists g, g2. split; [reflexivity | exact Hx].
    + destruct (Hnth _ _ Hy) as (gi & gi' & Hgi & Hone).
      exists gi, gi'. split; [| exact Hone].
      unfold before in *. cbn. fold one.
      unfold one in Hx |- *. now rewrite Hx.
Qed.

(** A loop whose iteration [i] raises, raises the same exception. *)
Lemma for_range_Raise (i : nat) :
  forall n self g gi e,
    (i < n)%nat ->
    before i g = Some gi ->
    one gi = Raise e ->
    for_range n body self g = Raise e.
Proof.
  induction i as [| i IH]; intros n self g gi e Hn Hgi He;
    destruct n as [| n]; try lia; cbn.
  - injection Hgi as ->.
    unfold bind, body, loop_body, bind. fold one. now rewrite He.
  - unfold before in Hgi. cbn in Hgi. fold one in Hgi.
    unfold bind at 1. unfold body at 1, loop_body, bind. fold one.
    destruct (one g) as [[x g1] | e1]; [| discriminate].
    cbn. apply (IH n _ g1 gi e); [lia | exact Hgi | exact He].
Qed.

(** The dataset that [__init__] returns, sample by sample. *)
Lemma init_Ok (N : Z) g d g' :
  __init__ N maxLen minLen maxValue g = Ok (d, g') ->
  batch_id d = 0 /\
  exists samples,
    length samples = Z.to_nat N /\
    seqlen d = map fst3 samples /\
    data d = map snd3 samples /\
    labels d = map thd3 samples /\
    forall i x, nth_error samples i = Some x ->
      exists gi gi', before i g = Some gi /\ one gi = Ok (x, gi').
Proof.
  intros H. unfold __init__ in H.
  apply bind_Ok in H. destruct H as (self & g1 & Hloop & H).
  apply ret_Ok in H. destruct H as [-> _].
  split; [reflexivity |].
  destruct (for_range_Ok _ _ _ _ _ Hloop)
    as (samples & Hn & Hs & Hd & Hl & _ & Hnth).
  exists samples. cbn in *. auto.
Qed.

(** The three entries at one index come from one sample. *)
Lemma init_entry (N : Z) g d g' i :
  __init__ N maxLen minLen maxValue g = Ok (d, g') ->
  (i < length (data d) \/ i < length (labels d) \/
   i < length (seqlen d))%nat ->
  exists len s l gi gi',
    nth_error (seqlen d) i = Some len /\
    nth_error (data d) i = Some s /\
    nth_error (labels d) i = Some l /\
    before i g = Some gi /\
    one gi = Ok ((len, s, l), gi').
Proof.
  intros H Hi.
  destruct (init_Ok _ _ _ _ H) as (_ & samples & Hn & Hs & Hd & Hl & Hnth).
  rewrite Hs, Hd, Hl, !length_map in Hi.
  assert (Hi' : (i < length samples)%nat) by lia.
  destruct (nth_error samples i) as [[[len s] l] |] eqn:Hx;
    [| apply nth_error_None in Hx; lia].
  destruct (Hnth _ _ Hx) as (gi & gi' & Hgi & Hone).
  exists len, s, l, gi, gi'.
  rewrite Hs, Hd, Hl, !nth_error_map, Hx. cbn. auto.
Qed.
End Loop.

(** ** Ints that convert to floats exactly *)

Lemma digits2_pos_lower (m : positive) :
  2 ^ (Zpos (digits2_pos m) - 1) <= Zpos m.
Proof.
  induction m as [m IH | m IH |]; cbn [digits2_pos].
  - rewrite Pos2Z.inj_succ.
    replace (Z.succ (Zpos (digits2_pos m)) - 1)
      with (Z.succ (Zpos (digits2_pos m) - 1)) by lia.
    rewrite Z.pow_succ_r by lia. lia.
  - rewrite Pos2Z.inj_succ.
    replace (Z.succ (Zpos (digits2_pos m)) - 1)
      with (Z.succ (Zpos (digits2_pos m) - 1)) by lia.
    rewrite Z.pow_succ_r by lia. lia.
  - cbn. lia.
Qed.

Lemma digits2_pos_53 (m : positive) :
  Zpos m < 2 ^ 53 -> Zpos (digits2_pos m) <= 53.
Proof.
  intros Hm. pose proof (digits2_pos_lower m) as Hl.
  destruct (Z.le_gt_cases (Zpos (digits2_pos m)) 53) as [H | H]; [exact H |].
  exfalso.
  assert (2 ^ 53 <= 2 ^ (Zpos (digits2_pos m) - 1))
    by (apply Z.pow_le_mono_r; lia).
  lia.
Qed.

Lemma digits2_pos_iter_xO (k m : positive) :
  digits2_pos (Pos.iter xO m k) = (digits2_pos m + k)%positive.
Proof.
  induction k as [| k IH] using Pos.peano_ind.
  - cbn. lia.
  - rewrite Pos.iter_succ. cbn [digits2_pos]. rewrite IH. lia.
Qed.

Lemma binary_round_aux_exact (mz : positive) (ez : Z) :
  Zpos (digits2_pos mz) = 53 -> -1074 <= ez <= 971 ->
  binary_round_aux 53 1024 false (Zpos mz) ez loc_Exact
  = S754_finite false mz ez.
Proof.
  intros Hd He.
  assert (Hf : fexp 53 1024 (Zdigits2 (Zpos mz) + ez) - ez = 0).
  { unfold fexp, emin. cbn [Zdigits2]. rewrite Hd. lia. }
  unfold binary_round_aux, shr_fexp. rewrite Hf.
  cbn [shr shr_record_of_loc shr_m loc_of_shr_record round_nearest_even].
  rewrite Hf. cbn [shr shr_record_of_loc shr_m].
  destruct (Z.leb_spec ez (1024 - 53)); [reflexivity | lia].
Qed.

Lemma binary_normalize_small (i : Z) :
  0 < i < 2 ^ 53 ->
  exists m e, binary_normalize 53 1024 i 0 false = S754_finite false m e.
Proof.
  intros Hi. destruct i as [| m | m]; try lia.
  cbn [binary_normalize]. unfold binary_round.
  pose proof (digits2_pos_53 m (proj2 Hi)) as Hd.
  assert (Hfexp : fexp 53 1024 (Zpos (digits2_pos m) + 0)
                  = Zpos (digits2_pos m) - 53).
  { unfold fexp, emin. lia. }
  rewrite Hfexp. unfold shl_align. rewrite Z.sub_0_r.
  destruct (Zpos (digits2_pos m) - 53) as [| k | k] eqn:Hk; try lia.
  - rewrite binary_round_aux_exact by lia. eauto.
  - rewrite binary_round_aux_exact; [eauto | | lia].
    rewrite digits2_pos_iter_xO. lia.
Qed.

Lemma float_of_int_small (i : Z) :
  0 <= i < 2 ^ 53 ->
  exists x, float_of_int i = Ok x /\ (0 < i -> is_zero x = false).
Proof.
  intros Hi. unfold float_of_int, prec, emax.
  destruct (Z.eq_dec i 0) as [-> | Hnz].
  - exists (S754_zero false). split; [reflexivity | lia].
  - destruct (binary_normalize_small i) as (m & e & ->); [lia |].
    exists (S754_finite false m e). split; reflexivity.
Qed.

Lemma scaled_small (max_value i : Z) :
  0 <= i < 2 ^ 53 -> 0 < max_value < 2 ^ 53 ->
  exists v, scaled max_value i = Ok v.
Proof.
  intros Hi Hm. unfold scaled, float_truediv.
  destruct (float_of_int_small i Hi) as (x & -> & _).
  destruct (float_of_int_small max_value) as (y & -> & Hy); [lia |].
  cbn [rbind]. rewrite Hy by lia. cbn [rbind]. eauto.
Qed.

(** ** Runs that return *)

Lemma randint_total a b g :
  a <= b -> exists n g', randint a b g = Ok (n, g') /\ a <= n <= b.
Proof.
  intros Hab.
  destruct (randint a b g) as [[n g'] | e] eqn:H.
  - exists n, g'. split; [reflexivity |]. exact (randint_Ok _ _ _ _ _ H).
  - unfold randint in H. destruct (Z.ltb_spec b a); [lia | discriminate H].
Qed.

Lemma mapM_total {A B : Type} (f : A -> M B) (l : list A) :
  (forall x g, In x l -> exists y g', f x g = Ok (y, g')) ->
  forall g, exists ys g', mapM f l g = Ok (ys, g').
Proof.
  induction l as [| x l IH]; intros Hf g; cbn.
  - unfold ret. eauto.
  - destruct (Hf x g (or_introl eq_refl)) as (y & g1 & Hy).
    destruct (IH (fun x' g' Hin => Hf x' g' (or_intror Hin)) g1)
      as (ys & g2 & Hys).
    unfold bind. rewrite Hy, Hys. unfold ret. eauto.
Qed.

Lemma In_py_range_inv a b i : In i (py_range a b) -> a <= i < b.
Proof.
  unfold py_range. rewrite in_map_iff.
  intros (k & <- & Hk). apply in_seq in Hk. lia.
Qed.

Lemma bind_run {A B : Type} (m : M A) (k : A -> M B) g a g1 :
  m g = Ok (a, g1) -> bind m k g = k a g1.
Proof. intros H. unfold bind. now rewrite H. Qed.

Lemma random_total g : exists u g', random g = Ok (u, g').
Proof. unfold random, bind, draw, ret. eauto. Qed.

(** With [minLen <= maxLen <= maxValue < 2^53] every draw has a range that
    is not empty and every int converts: an iteration returns. *)
Lemma sample_total maxLen minLen maxValue g :
  minLen <= maxLen -> maxLen <= maxValue -> maxValue < 2 ^ 53 ->
  exists x g', sample maxLen minLen maxValue g = Ok (x, g').
Proof.
  intros Hmin Hmax Hbig. unfold sample.
  destruct (randint_total minLen maxLen g Hmin) as (len & g1 & Hlen & Hr).
  rewrite (bind_run _ _ _ _ _ Hlen).
  destruct (random_total g1) as (u & g2 & Hu).
  rewrite (bind_run _ _ _ _ _ Hu).
  destruct (float_lt u f_half).
  - destruct (randint_total 0 (maxValue - len) g2)
      as (start & g3 & Hstart & Hs); [lia |].
    rewrite (bind_run _ _ _ _ _ Hstart).
    destruct (mapM_total (fun i => lift (scaled maxValue i))
                (py_range start (start + len))) with (g := g3)
      as (vals & g4 & Hvals).
    { intros i g5 Hi. apply In_py_range_inv in Hi.
      destruct (scaled_small maxValue i) as (v & Hv); [lia | lia |].
      exists v, g5. unfold lift. now rewrite Hv. }
    rewrite (bind_run _ _ _ _ _ Hvals). unfold ret. eauto.
  - destruct (mapM_total
                (fun _ : Z => r <- randint 0 maxValue ;;
                              lift (scaled maxValue r))
                (py_range 0 len)) with (g := g2)
      as (vals & g4 & Hvals).
    { intros i g5 Hi. apply In_py_range_inv in Hi.
      destruct (randint_total 0 maxValue g5) as (r & g6 & Hrand & Hrr);
        [lia |].
      destruct (scaled_small maxValue r) as (v & Hv); [lia | lia |].
      exists v, g6. rewrite (bind_run _ _ _ _ _ Hrand).
      unfold lift. now rewrite Hv. }
    rewrite (bind_run _ _ _ _ _ Hvals). unfold ret. eauto.
Qed.

Lemma for_range_total maxLen minLen maxValue (n : nat) :
  minLen <= maxLen -> maxLen <= maxValue -> maxValue < 2 ^ 53 ->
  forall self g,
    exists self' g',
      for_range n (loop_body maxLen minLen maxValue) self g = Ok (self', g').
Proof.
  intros Hmin Hmax Hbig.
  induction n as [| n IH]; intros self g; cbn.
  - unfold ret. eauto.
  - destruct (sample_total maxLen minLen maxValue g Hmin Hmax Hbig)
      as (x & g1 & Hx).
    assert (Hbody : loop_body maxLen minLen maxValue self g
                    = Ok (append_sample self x, g1)).
    { unfold loop_body. now rewrite (bind_run _ _ _ _ _ Hx). }
    rewrite (bind_run _ _ _ _ _ Hbody). apply IH.
Qed.

(** ** Well-formed datasets *)

Lemma demo_run :
  __init__ 2 5 2 10 (replay demo_tape)
  = Ok (demo_dataset, mkRng (tape (replay demo_tape)) 7).
Proof. vm_compute. reflexivity. Qed.

(** C3 (as amended): for parameters with N >= 0 and minLen >= 0 the
    generator, when minLen <= maxLen <= maxValue < 2^53, returns a dataset,
    and every dataset that it returns is well-formed: sequences, labels and
    trueLengths all have length exactly N; for every i,
    minLen <= trueLengths[i] <= maxLen and sequences[i] has exactly maxLen
    timesteps; every entry of sequences[i] at an index >= trueLengths[i] is
    the zero vector. (A run that returns has drawn every length from a
    range that is not empty, so the second part needs no bound on maxLen
    and maxValue.) *)
Theorem init_well_formed (N maxLen minLen maxValue : Z) g :
  0 <= N -> 0 <= minLen ->
  (minLen <= maxLen -> maxLen <= maxValue -> maxValue < 2 ^ 53 ->
   exists d g', __init__ N maxLen minLen maxValue g = Ok (d, g')) /\
  (forall d g',
      __init__ N maxLen minLen maxValue g = Ok (d, g') ->
      well_formed N maxLen minLen d).
Proof.
  intros HN Hmin. split.
  - intros Hle Hmax Hbig. unfold __init__.
    destruct (for_range_total maxLen minLen maxValue (Z.to_nat N)
                Hle Hmax Hbig (mkToySequenceData [] [] [] 0) g)
      as (self & g' & Hloop).
    rewrite (bind_run _ _ _ _ _ Hloop). unfold ret. eauto.
  - intros d g' H.
    destruct (init_Ok _ _ _ _ _ _ _ H)
      as (_ & samples & Hn & Hs & Hd & Hl & _).
    unfold well_formed, py_len.
    rewrite Hs, Hd, Hl, !length_map, Hn, Z2Nat.id by lia.
    repeat (split; [reflexivity |]).
    rewrite <- Hs, <- Hd.
    intros i len s Hlen Hseq.
    assert (Hi : (i < length (seqlen d))%nat)
      by (apply nth_error_Some; congruence).
    destruct (init_entry _ _ _ _ _ _ _ i H (or_intror (or_intror Hi)))
      as (len' & s' & l & gi & gi' & Hlen' & Hseq' & _ & _ & Hone).
    assert (len' = len) by congruence. assert (s' = s) by congruence.
    subst len' s'.
    destruct (sample_Ok _ _ _ _ _ _ _ _ Hone)
      as (Hrange & _ & vals & -> & Hvals & _).
    split; [exact Hrange |]. split.
    + rewrite length_app, padding_length, Hvals. lia.
    + intros j x Hj Hx.
      rewrite nth_error_app2 in Hx by lia.
      apply nth_error_In in Hx. now apply padding_zero in Hx.
Qed.

Lemma init_well_formed_witness :
  0 <= 2 /\ 0 <= 2 /\
  __init__ 2 5 2 10 (replay demo_tape)
  = Ok (demo_dataset, mkRng (tape (replay demo_tape)) 7) /\
  well_formed 2 5 2 demo_dataset.
Proof.
  assert (H0 : 0 <= 2) by lia.
  split; [exact H0 |]. split; [exact H0 |]. split; [exact demo_run |].
  exact (proj2 (init_well_formed 2 5 2 10 (replay demo_tape) H0 H0)
           _ _ demo_run).
Defined.

(** C3 fails as stated in two ways. A negative sample count builds the
    empty dataset, whose length 0 is not N. A negative minLen lets a
    negative length be drawn: with maxLen = 3 and the drawn length -2, the
    sequence is empty and is padded with 3 - (-2) = 5 zero vectors, not
    with 3. Both runs satisfy minLen <= maxLen and maxValue >= maxLen. *)
Lemma init_ill_formed :
  (1 <= 3 /\ 3 <= 10 /\
   exists d g', __init__ (-1) 3 1 10 (replay []) = Ok (d, g') /\
                ~ well_formed (-1) 3 1 d) /\
  (-2 <= 3 /\ 3 <= 10 /\
   exists d g', __init__ 1 3 (-2) 10 (replay [0; 0; 3]) = Ok (d, g') /\
                ~ well_formed 1 3 (-2) d).
Proof.
  split; (split; [lia |]); (split; [lia |]).
  - eexists; eexists. split; [vm_compute; reflexivity |].
    intros (H & _). vm_compute in H. discriminate H.
  - eexists; eexists. split; [vm_compute; reflexivity |].
    intros (_ & _ & _ & H).
    destruct (H 0%nat (-2) (repeat [f_zero] 5) eq_refl eq_refl)
      as (_ & Hlen & _).
    vm_compute in Hlen. discriminate Hlen.
Qed.

(** ** Labels *)

Lemma label_linear_one_hot : one_hot_at 2 0 label_linear.
Proof.
  split; [reflexivity |]. split; [lia |].
  intros [| [| j]] Hj; try reflexivity; lia.
Qed.

Lemma label_random_one_hot : one_hot_at 2 1 label_random.
Proof.
  split; [reflexivity |]. split; [lia |].
  intros [| [| j]] Hj; try reflexivity; lia.
Qed.

Lemma labels_differ : label_linear <> label_random.
Proof. discriminate. Qed.

(** C8: in every generated dataset every label is one-hot over exactly two
    classes (a single entry is 1., the other is 0., and 1. is not 0.), and
    the class is the branch that the iteration took: when the test
    [random.random() < .5] of iteration i, run from the state that the
    injected random source has reached, is true the label is the "linear"
    one (class 0), when it is false the label is the "random" one
    (class 1). *)
Theorem labels_match_branch (N maxLen minLen maxValue : Z) g d g' i l :
  __init__ N maxLen minLen maxValue g = Ok (d, g') ->
  nth_error (labels d) i = Some l ->
  one_hot 2 l /\ f_one <> f_zero /\
  exists gi,
    rng_before i maxLen minLen maxValue g = Some gi /\
    ((takes_linear_branch maxLen minLen gi = Ok true /\
      l = label_linear /\ one_hot_at 2 0 l)
     \/
     (takes_linear_branch maxLen minLen gi = Ok false /\
      l = label_random /\ one_hot_at 2 1 l)).
Proof.
  intros H Hl.
  assert (Hi : (i < length (labels d))%nat)
    by (apply nth_error_Some; congruence).
  destruct (init_entry _ _ _ _ _ _ _ i H (or_intror (or_introl Hi)))
    as (len & s & l' & gi & gi' & _ & _ & Hl' & Hgi & Hone).
  assert (l' = l) by congruence. subst l'.
  destruct (sample_Ok _ _ _ _ _ _ _ _ Hone)
    as (_ & _ & vals & _ & _ & [(Hb & -> & _) | (Hb & -> & _)]).
  - split; [exists 0%nat; apply label_linear_one_hot |].
    split; [discriminate |].
    exists gi. split; [exact Hgi |]. left.
    auto using label_linear_one_hot.
  - split; [exists 1%nat; apply label_random_one_hot |].
    split; [discriminate |].
    exists gi. split; [exact Hgi |]. right.
    auto using label_random_one_hot.
Qed.

Lemma labels_match_branch_witness :
  __init__ 2 5 2 10 (replay demo_tape)
  = Ok (demo_dataset, mkRng (tape (replay demo_tape)) 7) /\
  nth_error (labels demo_dataset) 1 = Some label_random /\
  one_hot 2 label_random.
Proof.
  split; [exact demo_run |]. split; [reflexivity |].
  exact (proj1 (labels_match_branch 2 5 2 10 _ _ _ 1 label_random
                  demo_run eq_refl)).
Defined.

(** ** Linear sequences *)






(** ** Parameters that the generator cannot serve *)


Lemma init_Raise (N maxLen minLen maxValue : Z) g i gi e :
  Z.of_nat i < N ->
  rng_before i maxLen minLen maxValue g = Some gi ->
  sample maxLen minLen maxValue gi = Raise e ->
  __init__ N maxLen minLen maxValue g = Raise e.
Proof.
  intros Hi Hgi He. unfold __init__, bind.
  rewrite (for_range_Raise maxLen minLen maxValue i _ _ g gi e);
    [reflexivity | lia | exact Hgi | exact He].
Qed.




(* ================================================================== *)
(** * Part IV: the last relevant output *)
(* ================================================================== *)

(** ** Maps that may raise *)

Lemma mapR_Ok {A B : Type} (f : A -> result B) (l : list A) :
  forall ys, mapR f l = Ok ys -> Forall2 (fun x y => f x = Ok y) l ys.
Proof.
  induction l as [| x l IH]; intros ys H; cbn in H.
  - injection H as <-. constructor.
  - unfold rbind in H. destruct (f x) as [y |] eqn:Hx; [| discriminate].
    destruct (mapR f l) as [ys' |]; [| discriminate].
    injection H as <-. constructor; auto.
Qed.

Lemma mapR_total {A B : Type} (f : A -> result B) (l : list A) :
  (forall x, In x l -> exists y, f x = Ok y) ->
  exists ys, mapR f l = Ok ys.
Proof.
  induction l as [| x l IH]; intros H; cbn.
  - eauto.
  - destruct (H x (or_introl eq_refl)) as (y & ->).
    destruct IH as (ys & ->); [intros; apply H; now right |].
    cbn. eauto.
Qed.

Lemma mapR_Raise {A B : Type} (f : A -> result B) (l : list A) (e : exn) :
  (forall x e', In x l -> f x = Raise e' -> e' = e) ->
  (exists x, In x l /\ f x = Raise e) ->
  mapR f l = Raise e.
Proof.
  induction l as [| x l IH]; intros Hall (x0 & Hin & Hx0).
  - destruct Hin.
  - cbn. unfold rbind.
    destruct (f x) as [y | e'] eqn:Hx.
    + rewrite IH; [reflexivity | |].
      * intros; eapply Hall; [right |]; eassumption.
      * destruct Hin as [Heq | Hin]; [| eauto].
        rewrite Heq, Hx0 in Hx. discriminate Hx.
    + f_equal. apply (Hall x); auto. now left.
Qed.

Lemma mapR_map {A B C : Type} (f : B -> result C) (g : A -> B) (l : list A) :
  mapR f (map g l) = mapR (fun x => f (g x)) l.
Proof.
  induction l as [| x l IH]; cbn; [reflexivity |]. now rewrite IH.
Qed.

Lemma mapR_pointwise {A A' B : Type} (f : A -> result B) (g : A' -> result B)
  l l' :
  Forall2 (fun x y => f x = g y) l l' -> mapR f l = mapR g l'.
Proof.
  induction 1 as [| x y l l' Hxy Hll IH]; cbn; [reflexivity |].
  now rewrite Hxy, IH.
Qed.

(** ** Positions in lists *)

Lemma Forall2_of_nth {A B : Type} (R : A -> B -> Prop) (l : list A) :
  forall l',
    length l = length l' ->
    (forall i x y, nth_error l i = Some x -> nth_error l' i = Some y -> R x y) ->
    Forall2 R l l'.
Proof.
  induction l as [| a l IH]; intros [| b l'] Hlen H; try discriminate.
  - constructor.
  - constructor.
    + apply (H 0%nat); reflexivity.
    + apply IH; [cbn in Hlen; lia |].
      intros i x y Hx Hy. apply (H (S i)); assumption.
Qed.

Lemma nth_error_combine {A B : Type} (l : list A) :
  forall (l' : list B) i,
    nth_error (combine l l') i =
    match nth_error l i, nth_error l' i with
    | Some a, Some b => Some (a, b)
    | _, _ => None
    end.
Proof.
  induction l as [| a l IH]; intros [| b l'] [| i]; cbn; try reflexivity.
  - now destruct (nth_error l i).
  - apply IH.
Qed.

Lemma combine_map_map {A B C D : Type} (f : A -> C) (g : B -> D) (l : list A) :
  forall l',
    combine (map f l) (map g l') =
    map (fun p => (f (fst p), g (snd p))) (combine l l').
Proof.
  induction l as [| a l IH]; intros [| b l']; cbn; try reflexivity.
  now rewrite IH.
Qed.

(** The rows of equal length [n], laid end to end. *)
Lemma length_concat_uniform {A : Type} (n : nat) (t : list (list A)) :
  Forall (fun s => length s = n) t ->
  length (concat t) = (length t * n)%nat.
Proof.
  induction 1 as [| s t Hs _ IH]; cbn; [reflexivity |].
  rewrite length_app, IH, Hs. reflexivity.
Qed.

Lemma nth_error_concat_uniform {A : Type} (n : nat) (t : list (list A)) :
  Forall (fun s => length s = n) t ->
  forall b s k,
    nth_error t b = Some s -> (k < n)%nat ->
    nth_error (concat t) (b * n + k) = nth_error s k.
Proof.
  induction 1 as [| s0 t Hs0 _ IH]; intros b s k Hb Hk.
  - destruct b; discriminate.
  - destruct b as [| b]; cbn in Hb |- *.
    + injection Hb as ->. apply nth_error_app1. lia.
    + rewrite nth_error_app2 by lia.
      replace (n + b * n + k - length s0)%nat with (b * n + k)%nat by lia.
      now apply IH.
Qed.

(** ** int32 *)

Lemma wrap32_small (z : Z) : - 2 ^ 31 <= z < 2 ^ 31 -> wrap32 z = z.
Proof.
  intros Hz. unfold wrap32. rewrite Z.mod_small; lia.
Qed.

(** ** Rows of a list *)

Lemma row_at_Some {X : Type} (l : list X) (i : Z) (x : X) :
  0 <= i -> nth_error l (Z.to_nat i) = Some x -> row_at l i = Ok x.
Proof.
  intros Hi Hx. unfold row_at.
  assert (Hlt : (Z.to_nat i < length l)%nat)
    by (apply nth_error_Some; congruence).
  rewrite Hx.
  destruct (Z.leb_spec 0 i); [| lia].
  destruct (Z.ltb_spec i (py_len l)); [reflexivity |].
  unfold py_len in *. lia.
Qed.

Lemma row_at_inside {X : Type} (l : list X) (i : Z) :
  0 <= i < py_len l -> exists x, row_at l i = Ok x.
Proof.
  intros Hi. unfold py_len in Hi.
  destruct (nth_error l (Z.to_nat i)) as [x |] eqn:Hx.
  - exists x. apply row_at_Some; [lia | exact Hx].
  - apply nth_error_None in Hx. lia.
Qed.

Lemma row_at_Ok {X : Type} (l : list X) (i : Z) (x : X) :
  row_at l i = Ok x -> nth_error l (Z.to_nat i) = Some x.
Proof.
  unfold row_at.
  destruct ((0 <=? i) && (i <? py_len l)); [| discriminate].
  destruct (nth_error l (Z.to_nat i)); [| discriminate].
  now intros H; injection H as ->.
Qed.

Lemma row_at_outside {X : Type} (l : list X) (i : Z) :
  ~ (0 <= i < py_len l) -> row_at l i = Raise InvalidArgumentError.
Proof.
  intros Hi. unfold row_at.
  destruct (Z.leb_spec 0 i); destruct (Z.ltb_spec i (py_len l));
    cbn; try reflexivity; lia.
Qed.

Lemma row_at_Raise {X : Type} (l : list X) (i : Z) (e : exn) :
  row_at l i = Raise e -> e = InvalidArgumentError.
Proof.
  unfold row_at.
  destruct ((0 <=? i) && (i <? py_len l));
    [destruct (nth_error l (Z.to_nat i)) |]; congruence.
Qed.

(** ** The reshape *)

Lemma rows_of_step {A : Type} (fuel w : nat) (l : list A) :
  l <> [] -> (w <= length l)%nat ->
  rows_of (S fuel) w l =
  rbind (rows_of fuel w (skipn w l)) (fun r => Ok (firstn w l :: r)).
Proof.
  intros Hl Hw. destruct l as [| a l]; [congruence |].
  cbn [rows_of].
  destruct (Nat.ltb_spec (length (a :: l)) w); [lia | reflexivity].
Qed.

(** Regrouping the concatenation of rows of width [w] gives the rows back,
    whenever the fuel covers the elements. *)
Lemma rows_of_concat {A : Type} (w : nat) (rows : list (list A)) :
  (0 < w)%nat ->
  Forall (fun r => length r = w) rows ->
  forall fuel,
    (length (concat rows) <= fuel)%nat ->
    rows_of fuel w (concat rows) = Ok rows.
Proof.
  intros Hw. induction 1 as [| r rows Hr _ IH]; intros fuel Hfuel.
  - destruct fuel; reflexivity.
  - cbn [concat] in *. rewrite length_app in Hfuel.
    destruct fuel as [| fuel]; [lia |].
    rewrite rows_of_step.
    + rewrite skipn_app, firstn_app, Hr, Nat.sub_diag.
      rewrite skipn_all2, firstn_all2 by lia.
      cbn [skipn firstn app]. rewrite app_nil_r.
      rewrite IH by lia. reflexivity.
    + destruct r; [cbn in Hr; lia | discriminate].
    + rewrite length_app. lia.
Qed.

Lemma Forall_concat_rows {A : Type} (P : A -> Prop) (t : list (list A)) :
  Forall (Forall P) t -> Forall P (concat t).
Proof.
  induction 1 as [| s t Hs _ IH]; cbn; [constructor |].
  apply Forall_app. auto.
Qed.

(** ** The index vector *)

Lemma index_eq (maxLen : Z) (B : nat) (seqlen : list Z) :
  length seqlen = B ->
  index maxLen (Z.of_nat B) seqlen =
  Ok (map (fun p => flat_index maxLen (fst p) (snd p))
          (combine (seq 0 B) seqlen)).
Proof.
  intros Hlen.
  unfold index, tf_add, tf_mul_scalar, tf_sub_scalar, tf_range, py_range.
  rewrite Z.sub_0_r, Nat2Z.id, !length_map, length_seq, Hlen, Nat.eqb_refl.
  rewrite !map_map, combine_map_map, map_map. reflexivity.
Qed.

(** ** The gather over a well-shaped batch *)

Section Gather.
Context {A : Type}.
Variables (maxLen H : Z) (B : nat) (outputs : list (list (list A))).
Hypothesis Hshape : shape3 maxLen H B outputs.
Hypothesis HH : 0 < H.

Lemma shape3_steps :
  Forall (fun s => length s = Z.to_nat maxLen) outputs.
Proof.
  pose proof Hshape as [_ Hs]. eapply Forall_impl; [| exact Hs].
  cbn. unfold py_len. intros s [Hl _]. lia.
Qed.

Lemma shape3_maxLen_nonneg : (0 < B)%nat -> 0 <= maxLen.
Proof.
  pose proof Hshape as [Hlen Hs]. intros HB.
  destruct outputs as [| s t]; [cbn in Hlen; lia |].
  inversion Hs as [| ? ? Hhd _]; subst. destruct Hhd as [Hl _].
  unfold py_len in Hl. lia.
Qed.

Lemma shape3_rows :
  Forall (fun r => length r = Z.to_nat H) (concat outputs).
Proof.
  pose proof Hshape as [_ Hs]. apply Forall_concat_rows.
  eapply Forall_impl; [| exact Hs]. cbn. intros s [_ Hr].
  eapply Forall_impl; [| exact Hr]. cbn. unfold py_len. lia.
Qed.

(** The flattened data has [B * maxLen] rows. *)
Lemma flat_rows : py_len (concat outputs) = Z.of_nat B * maxLen.
Proof.
  unfold py_len. rewrite (length_concat_uniform _ _ shape3_steps).
  pose proof Hshape as [Hlen _]. rewrite Hlen.
  destruct (Nat.eq_dec B 0) as [HB | HB].
  - rewrite HB. reflexivity.
  - pose proof (shape3_maxLen_nonneg ltac:(lia)). nia.
Qed.

Lemma tf_reshape_flat : tf_reshape H outputs = Ok (concat outputs).
Proof.
  unfold tf_reshape.
  destruct (Z.leb_spec H 0); [lia |].
  apply rows_of_concat; [lia | exact shape3_rows | lia].
Qed.

(** The extractor is a map of [row_at] over the flat indices. *)
Lemma dynamicRNN_outputs_eq (seqlen : list Z) :
  length seqlen = B ->
  dynamicRNN_outputs maxLen H outputs seqlen =
  mapR (fun p => row_at (concat outputs)
                        (flat_index maxLen (fst p) (snd p)))
       (combine (seq 0 B) seqlen).
Proof.
  intros Hlen. unfold dynamicRNN_outputs, tf_shape0, py_len.
  pose proof Hshape as [HB _]. rewrite HB, (index_eq _ _ _ Hlen).
  cbn [rbind]. rewrite tf_reshape_flat. cbn [rbind].
  unfold tf_gather. apply mapR_map.
Qed.

(** The entries of [combine (seq 0 B) seqlen]. *)
Lemma indexed_lengths (seqlen : list Z) (b : nat) (p : nat * Z) :
  nth_error (combine (seq 0 B) seqlen) b = Some p ->
  fst p = b /\ (b < B)%nat /\ nth_error seqlen b = Some (snd p).
Proof.
  rewrite nth_error_combine, nth_error_seq.
  destruct (Nat.ltb_spec b B); [| discriminate].
  destruct (nth_error seqlen b); [| discriminate].
  intros Hp; injection Hp as <-. cbn. auto.
Qed.

(** Without overflow the flat index is [b * maxLen + (t - 1)]. *)
Lemma flat_index_exact (b : nat) (t : Z) :
  int32_indexable maxLen B -> (b < B)%nat -> 1 <= t <= maxLen ->
  flat_index maxLen b t = Z.of_nat b * maxLen + (t - 1).
Proof.
  unfold int32_indexable, flat_index. intros HI Hb Ht.
  assert (0 <= Z.of_nat b * maxLen) by nia.
  assert (Z.of_nat b * maxLen + maxLen <= Z.of_nat B * maxLen) by nia.
  rewrite (wrap32_small (Z.of_nat b * maxLen)) by lia.
  rewrite (wrap32_small (t - 1)) by lia.
  apply wrap32_small. lia.
Qed.

(** Row [b * maxLen + (t - 1)] of the flattened data is timestep [t - 1]
    of sequence [b]. *)
Lemma flat_offset (b : nat) (s : list (list A)) (t : Z) :
  nth_error outputs b = Some s -> 1 <= t <= maxLen ->
  nth_error (concat outputs) (Z.to_nat (Z.of_nat b * maxLen + (t - 1)))
  = nth_error s (Z.to_nat (t - 1)).
Proof.
  intros Hs Ht.
  replace (Z.to_nat (Z.of_nat b * maxLen + (t - 1)))
    with (b * Z.to_nat maxLen + Z.to_nat (t - 1))%nat by nia.
  apply (nth_error_concat_uniform _ _ shape3_steps); [exact Hs | lia].
Qed.

Lemma timestep_exists (b : nat) (s : list (list A)) (t : Z) :
  nth_error outputs b = Some s -> 1 <= t <= maxLen ->
  exists row, nth_error s (Z.to_nat (t - 1)) = Some row /\ py_len row = H.
Proof.
  intros Hs Ht. pose proof Hshape as [_ Hall].
  rewrite Forall_forall in Hall.
  destruct (Hall s (nth_error_In _ _ Hs)) as [Hl Hr].
  unfold py_len in Hl.
  destruct (nth_error s (Z.to_nat (t - 1))) as [row |] eqn:Hrow;
    [| apply nth_error_None in Hrow; lia].
  exists row. split; [reflexivity |].
  rewrite Forall_forall in Hr. apply Hr. eapply nth_error_In, Hrow.
Qed.

(** Gather by flat index and direct indexing pick the same row. *)
Lemma gather_is_direct (b : nat) (s : list (list A)) (t : Z) :
  int32_indexable maxLen B ->
  nth_error outputs b = Some s -> 1 <= t <= maxLen ->
  exists row,
    nth_error s (Z.to_nat (t - 1)) = Some row /\ py_len row = H /\
    row_at (concat outputs) (flat_index maxLen b t) = Ok row /\
    row_at s (t - 1) = Ok row.
Proof.
  intros HI Hs Ht.
  destruct (timestep_exists b s t Hs Ht) as (row & Hrow & Hw).
  assert (Hb : (b < B)%nat).
  { pose proof Hshape as [<- _]. apply nth_error_Some. congruence. }
  exists row. split; [exact Hrow |]. split; [exact Hw |]. split.
  - rewrite (flat_index_exact b t HI Hb Ht).
    apply row_at_Some; [nia |]. now rewrite (flat_offset b s t Hs Ht).
  - apply row_at_Some; [lia | exact Hrow].
Qed.
End Gather.

(** ** The extractor on valid true lengths *)

Lemma nth_indexed_lengths (B : nat) (seqlen : list Z) (b : nat) (t : Z) :
  length seqlen = B -> nth_error seqlen b = Some t ->
  nth_error (combine (seq 0 B) seqlen) b = Some (b, t).
Proof.
  intros Hlen Ht.
  assert (Hb : (b < B)%nat) by (subst B; apply nth_error_Some; congruence).
  rewrite nth_error_combine, nth_error_seq, Ht.
  destruct (Nat.ltb_spec b B); [reflexivity | lia].
Qed.

(** On a well-shaped batch with valid true lengths the extractor returns,
    and every row it returns is the row that direct indexing picks. *)
Lemma dynamicRNN_outputs_valid {A : Type} (maxLen H : Z) (B : nat)
  (outputs : list (list (list A))) (seqlen : list Z) :
  shape3 maxLen H B outputs -> 0 < H -> int32_indexable maxLen B ->
  valid_lengths maxLen B seqlen ->
  exists out,
    dynamicRNN_outputs maxLen H outputs seqlen = Ok out /\
    length out = B /\
    forall b s t,
      nth_error outputs b = Some s -> nth_error seqlen b = Some t ->
      exists row,
        nth_error out b = Some row /\
        nth_error s (Z.to_nat (t - 1)) = Some row /\
        py_len row = H /\
        row_at s (t - 1) = Ok row.
Proof.
  intros Hshape HH HI [Hlen Hvalid].
  rewrite Forall_forall in Hvalid.
  rewrite (dynamicRNN_outputs_eq maxLen H B outputs Hshape HH seqlen Hlen).
  set (f := fun p : nat * Z =>
              row_at (concat outputs) (flat_index maxLen (fst p) (snd p))).
  assert (Hrow : forall b s t,
             nth_error outputs b = Some s -> nth_error seqlen b = Some t ->
             exists row,
               nth_error s (Z.to_nat (t - 1)) = Some row /\ py_len row = H /\
               f (b, t) = Ok row /\ row_at s (t - 1) = Ok row).
  { intros b s t Hs Ht.
    apply (gather_is_direct maxLen H B outputs Hshape b s t HI Hs).
    apply Hvalid. eapply nth_error_In, Ht. }
  destruct (mapR_total f (combine (seq 0 B) seqlen)) as (out & Hout).
  { intros p Hp. apply In_nth_error in Hp. destruct Hp as (b & Hp).
    destruct (indexed_lengths B seqlen b p Hp) as (Hfst & Hb & Ht).
    destruct (nth_error outputs b) as [s |] eqn:Hs.
    - destruct (Hrow b s (snd p) Hs Ht) as (row & _ & _ & Hf & _).
      exists row. rewrite <- Hf, <- Hfst. now destruct p.
    - apply nth_error_None in Hs. destruct Hshape as [HB _]. lia. }
  exists out. split; [exact Hout |].
  apply mapR_Ok in Hout.
  split.
  - rewrite <- (Forall2_length_eq _ _ _ Hout), length_combine, length_seq.
    lia.
  - intros b s t Hs Ht.
    destruct (Hrow b s t Hs Ht) as (row & Hnth & Hw & Hf & Hd).
    destruct (Forall2_nth _ _ _ Hout _ _ (nth_indexed_lengths B _ _ _ Hlen Ht))
      as (row' & Hrow' & Hf').
    assert (row' = row) by congruence. subst row'.
    exists row. auto.
Qed.

(** C1: for every batch of B padded sequences of maxLen timesteps of
    width H (H >= 1, and B * maxLen within the range of the int32 index
    arithmetic) and every array of B true lengths with
    1 <= trueLengths[b] <= maxLen, the extractor returns B rows of width H,
    and row b is timestep trueLengths[b] - 1 of sequence b: the last
    timestep when trueLengths[b] = maxLen, the first when
    trueLengths[b] = 1. On the scenario maxLen = 5, H = 1, values
    [[10..14], [20..24]], trueLengths = [3, 1], the output is [12, 20]. *)
Theorem last_relevant_output {A : Type} (maxLen H : Z) (B : nat)
  (outputs : list (list (list A))) (seqlen : list Z) :
  shape3 maxLen H B outputs -> 0 < H -> int32_indexable maxLen B ->
  valid_lengths maxLen B seqlen ->
  (exists out,
      dynamicRNN_outputs maxLen H outputs seqlen = Ok out /\
      length out = B /\
      Forall (fun row => py_len row = H) out /\
      forall b s t,
        nth_error outputs b = Some s -> nth_error seqlen b = Some t ->
        exists row,
          nth_error out b = Some row /\
          nth_error s (Z.to_nat (t - 1)) = Some row /\
          (t = maxLen -> nth_error s (length s - 1) = Some row) /\
          (t = 1 -> nth_error s 0 = Some row)) /\
  dynamicRNN_outputs 5 1 scenario_outputs scenario_lengths = Ok [[12]; [20]].
Proof.
  intros Hshape HH HI Hvalid. split; [| reflexivity].
  destruct (dynamicRNN_outputs_valid maxLen H B outputs seqlen
              Hshape HH HI Hvalid) as (out & Hout & Hlen & Hrows).
  exists out. split; [exact Hout |]. split; [exact Hlen |]. split.
  - apply Forall_forall. intros row Hin.
    apply In_nth_error in Hin. destruct Hin as (b & Hb).
    assert (Hlt : (b < B)%nat) by (subst B; apply nth_error_Some; congruence).
    destruct Hshape as [HB _]. destruct Hvalid as [HL _].
    destruct (nth_error outputs b) as [s |] eqn:Hs;
      [| apply nth_error_None in Hs; lia].
    destruct (nth_error seqlen b) as [t |] eqn:Ht;
      [| apply nth_error_None in Ht; lia].
    destruct (Hrows b s t Hs Ht) as (row' & Hrow' & _ & Hw & _).
    congruence.
  - intros b s t Hs Ht.
    destruct (Hrows b s t Hs Ht) as (row & Hrow & Hnth & _ & _).
    exists row. split; [exact Hrow |]. split; [exact Hnth |].
    destruct Hshape as [_ Hall]. rewrite Forall_forall in Hall.
    destruct (Hall s (nth_error_In _ _ Hs)) as [Hl _]. unfold py_len in Hl.
    split; intros ->.
    + replace (length s - 1)%nat with (Z.to_nat (maxLen - 1)) by lia.
      exact Hnth.
    + exact Hnth.
Qed.

Lemma scenario_shape : shape3 5 1 2 scenario_outputs.
Proof. split; [reflexivity |]. repeat constructor. Qed.

Lemma scenario_valid : valid_lengths 5 2 scenario_lengths.
Proof. split; [reflexivity |]. repeat constructor; lia. Qed.

Lemma scenario_indexable : int32_indexable 5 2.
Proof. unfold int32_indexable. cbn. lia. Qed.

Lemma last_relevant_output_witness :
  shape3 5 1 2 scenario_outputs /\ 0 < 1 /\ int32_indexable 5 2 /\
  valid_lengths 5 2 scenario_lengths /\
  exists out,
    dynamicRNN_outputs 5 1 scenario_outputs scenario_lengths = Ok out /\
    length out = 2%nat.
Proof.
  split; [exact scenario_shape |]. split; [exact Z.lt_0_1 |].
  split; [exact scenario_indexable |]. split; [exact scenario_valid |].
  destruct (proj1 (last_relevant_output 5 1 2 scenario_outputs
                     scenario_lengths scenario_shape Z.lt_0_1
                     scenario_indexable scenario_valid))
    as (out & Hout & Hlen & _).
  exists out. split; [exact Hout | exact Hlen].
Defined.

(** C4: for every batch of B padded sequences of maxLen timesteps of
    width H (H >= 1, B * maxLen within the int32 range) and every valid
    true-length array, the data flattened to (B * maxLen) x H holds at flat
    offset b * maxLen + (trueLengths[b] - 1), which is the index that the
    extractor computes, the row data[b][trueLengths[b] - 1]; gathering by
    flat index and indexing directly are the same function there, and both
    return. *)
Theorem gather_refines_direct_indexing {A : Type} (maxLen H : Z) (B : nat)
  (outputs : list (list (list A))) (seqlen : list Z) :
  shape3 maxLen H B outputs -> 0 < H -> int32_indexable maxLen B ->
  valid_lengths maxLen B seqlen ->
  (exists flat,
      tf_reshape H outputs = Ok flat /\
      py_len flat = Z.of_nat B * maxLen /\
      forall b s t,
        nth_error outputs b = Some s -> nth_error seqlen b = Some t ->
        flat_index maxLen b t = Z.of_nat b * maxLen + (t - 1) /\
        nth_error flat (Z.to_nat (Z.of_nat b * maxLen + (t - 1)))
        = nth_error s (Z.to_nat (t - 1))) /\
  dynamicRNN_outputs maxLen H outputs seqlen
  = direct_last_timestep outputs seqlen /\
  exists out, direct_last_timestep outputs seqlen = Ok out.
Proof.
  intros Hshape HH HI Hvalid.
  pose proof Hvalid as [Hlen Hall]. rewrite Forall_forall in Hall.
  pose proof Hshape as [HB _].
  assert (Heq : dynamicRNN_outputs maxLen H outputs seqlen
                = direct_last_timestep outputs seqlen).
  { rewrite (dynamicRNN_outputs_eq maxLen H B outputs Hshape HH seqlen Hlen).
    unfold direct_last_timestep. apply mapR_pointwise.
    apply Forall2_of_nth.
    - rewrite !length_combine, length_seq. lia.
    - intros i [b t] [s t'] Hx Hy.
      destruct (indexed_lengths B seqlen i _ Hx) as (Hb & _ & Ht).
      cbn in Hb, Ht. subst b.
      rewrite nth_error_combine, Ht in Hy.
      destruct (nth_error outputs i) as [s0 |] eqn:Hs; [| discriminate].
      injection Hy as -> ->. cbn [fst snd].
      destruct (gather_is_direct maxLen H B outputs Hshape i s t' HI Hs)
        as (row & _ & _ & -> & ->); [| reflexivity].
      apply Hall. eapply nth_error_In, Ht. }
  split; [| split; [exact Heq |]].
  - exists (concat outputs).
    split; [exact (tf_reshape_flat maxLen H B outputs Hshape HH) |].
    split; [exact (flat_rows maxLen H B outputs Hshape) |].
    intros b s t Hs Ht.
    assert (Hv : 1 <= t <= maxLen) by (apply Hall; eapply nth_error_In, Ht).
    assert (Hb : (b < B)%nat)
      by (rewrite <- HB; apply nth_error_Some; congruence).
    split.
    + exact (flat_index_exact maxLen B b t HI Hb Hv).
    + exact (flat_offset maxLen H B outputs Hshape b s t Hs Hv).
  - rewrite <- Heq.
    destruct (dynamicRNN_outputs_valid maxLen H B outputs seqlen
                Hshape HH HI Hvalid) as (out & Hout & _).
    now exists out.
Qed.

Lemma gather_refines_direct_indexing_witness :
  shape3 5 1 2 scenario_outputs /\ 0 < 1 /\ int32_indexable 5 2 /\
  valid_lengths 5 2 scenario_lengths /\
  dynamicRNN_outputs 5 1 scenario_outputs scenario_lengths
  = direct_last_timestep scenario_outputs scenario_lengths.
Proof.
  split; [exact scenario_shape |]. split; [exact Z.lt_0_1 |].
  split; [exact scenario_indexable |]. split; [exact scenario_valid |].
  exact (proj1 (proj2 (gather_refines_direct_indexing 5 1 2
                         scenario_outputs scenario_lengths scenario_shape
                         Z.lt_0_1 scenario_indexable scenario_valid))).
Defined.

(** ** The extractor on arbitrary true lengths *)

(** C5 (as amended): on a well-shaped batch the extractor raises
    (InvalidArgumentError, from the gather) as soon as the flat index
    b * maxLen + (trueLengths[b] - 1) of some b, computed in int32, lies
    outside [0, B * maxLen); when every flat index lies inside, it returns
    the rows at these flat indices, whatever the true lengths are. A true
    length outside [1, maxLen] whose flat index stays inside is therefore
    not reported: the row at that index, a timestep of a neighbouring
    sequence, is returned. *)
Theorem gather_checks_flat_index {A : Type} (maxLen H : Z) (B : nat)
  (outputs : list (list (list A))) (seqlen : list Z) :
  shape3 maxLen H B outputs -> 0 < H -> length seqlen = B ->
  ((exists b t, nth_error seqlen b = Some t /\
                ~ (0 <= flat_index maxLen b t < Z.of_nat B * maxLen)) ->
   dynamicRNN_outputs maxLen H outputs seqlen = Raise InvalidArgumentError) /\
  ((forall b t, nth_error seqlen b = Some t ->
                0 <= flat_index maxLen b t < Z.of_nat B * maxLen) ->
   exists out,
     dynamicRNN_outputs maxLen H outputs seqlen = Ok out /\
     forall b t, nth_error seqlen b = Some t ->
       exists row,
         nth_error out b = Some row /\
         nth_error (concat outputs) (Z.to_nat (flat_index maxLen b t))
         = Some row).
Proof.
  intros Hshape HH Hlen.
  rewrite (dynamicRNN_outputs_eq maxLen H B outputs Hshape HH seqlen Hlen).
  pose proof (flat_rows maxLen H B outputs Hshape) as Hrows.
  split.
  - intros (b & t & Ht & Hout).
    apply mapR_Raise.
    + intros p e _ He. exact (row_at_Raise _ _ _ He).
    + exists (b, t). split.
      * eapply nth_error_In, nth_indexed_lengths; eassumption.
      * apply row_at_outside. cbn [fst snd]. now rewrite Hrows.
  - intros Hin.
    destruct (mapR_total
                (fun p => row_at (concat outputs)
                                 (flat_index maxLen (fst p) (snd p)))
                (combine (seq 0 B) seqlen)) as (out & Hout).
    { intros p Hp. apply In_nth_error in Hp. destruct Hp as (b & Hp).
      destruct (indexed_lengths B seqlen b p Hp) as (Hfst & _ & Ht).
      apply row_at_inside. rewrite Hrows, Hfst. now apply Hin. }
    exists out. split; [exact Hout |].
    apply mapR_Ok in Hout.
    intros b t Ht.
    destruct (Forall2_nth _ _ _ Hout _ _ (nth_indexed_lengths B _ _ _ Hlen Ht))
      as (row & Hrow & Hf).
    exists row. split; [exact Hrow |]. exact (row_at_Ok _ _ _ Hf).
Qed.

Lemma gather_checks_flat_index_witness :
  shape3 5 1 2 scenario_outputs /\ 0 < 1 /\ length [0; 3] = 2%nat /\
  dynamicRNN_outputs 5 1 scenario_outputs [0; 3] = Raise InvalidArgumentError.
Proof.
  split; [exact scenario_shape |]. split; [exact Z.lt_0_1 |].
  split; [reflexivity |].
  apply (proj1 (gather_checks_flat_index 5 1 2 scenario_outputs [0; 3]
                  scenario_shape Z.lt_0_1 eq_refl)).
  exists 0%nat, 0. split; [reflexivity |].
  vm_compute. intros [H _]. now apply H.
Defined.

(** C5 fails as stated: in the scenario batch the true lengths [3, 0] hold
    a 0, outside [1, 5], and the extractor returns [12, 14] without any
    error: the flat index of sequence 1 is 1 * 5 + (0 - 1) = 4, the last
    timestep of sequence 0. *)
Lemma gather_accepts_bad_length :
  shape3 5 1 2 scenario_outputs /\ length [3; 0] = 2%nat /\
  dynamicRNN_outputs 5 1 scenario_outputs [3; 0] = Ok [[12]; [14]] /\
  ~ rejects_bad_lengths 5 1 scenario_outputs [3; 0].
Proof.
  split; [exact scenario_shape |]. split; [reflexivity |].
  split; [reflexivity |].
  unfold rejects_bad_lengths. intros Hc.
  destruct Hc as (e & He).
  - exists 1%nat, 0. split; [reflexivity | lia].
  - vm_compute in He. discriminate He.
Qed.

(* ================================================================== *)
(** * Part V: the reader in the training loop *)
(* ================================================================== *)

(** ** Pieces of a list *)

Lemma firstn_plus {X : Type} (a b : nat) (l : list X) :
  firstn (a + b) l = firstn a l ++ firstn b (skipn a l).
Proof.
  revert l. induction a as [| a IH]; intros l; [reflexivity |].
  destruct l as [| x l]; cbn.
  - now rewrite firstn_nil.
  - now rewrite IH.
Qed.

Lemma skipn_plus {X : Type} (a b : nat) (l : list X) :
  skipn (a + b) l = skipn b (skipn a l).
Proof.
  revert l. induction a as [| a IH]; intros l; [reflexivity |].
  destruct l as [| x l]; cbn; [now rewrite skipn_nil | apply IH].
Qed.

Lemma skipn_beyond {X : Type} (a b : nat) (l : list X) :
  (length l <= a)%nat -> (length l <= b)%nat -> skipn a l = skipn b l.
Proof. intros Ha Hb. now rewrite !skipn_all2. Qed.



(** ** One call *)

Lemma start_of_call_range (self : ToySequenceData) :
  cursor_in_range self ->
  0 <= start_of_call self <= py_len (data self) /\
  (0 < py_len (data self) -> start_of_call self < py_len (data self)).
Proof.
  unfold cursor_in_range, start_of_call. intros Hc.
  destruct (Z.eqb_spec (batch_id self) (py_len (data self))); lia.
Qed.

(** A call with a size that is not negative, on parallel collections. *)
Lemma next_upto (self : ToySequenceData) (bs : Z) :
  parallel self -> cursor_in_range self -> 0 <= bs ->
  let c := Z.to_nat (start_of_call self) in
  let n := Z.to_nat bs in
  next self bs =
    ((firstn n (skipn c (data self)),
      firstn n (skipn c (labels self)),
      firstn n (skipn c (seqlen self))),
     set_batch_id self
       (Z.min (start_of_call self + bs) (py_len (data self)))).
Proof.
  intros [Hl Hs] Hc Hbs. cbv zeta.
  destruct (start_of_call_range self Hc) as [Hr _].
  rewrite next_unfold. cbv zeta. fold (start_of_call self).
  rewrite !(py_slice_upto _ (py_len (data self)))
    by (unfold py_len in *; lia).
  reflexivity.
Qed.

(** X2: on parallel collections, with the cursor in [0, N] and a batch
    size that is not negative, a call returns min(batchSize, N - c) items
    in each of the three lists, c being the cursor after the reset test.
    The batch is empty only if the dataset is empty or the size is 0: the
    reset at the start of the call keeps a reader that has reached the end
    from handing out an empty batch. *)
Theorem next_batch_length (self : ToySequenceData) (bs : Z) :
  parallel self -> cursor_in_range self -> 0 <= bs ->
  py_len (batch_x (fst (next self bs)))
  = Z.min bs (py_len (data self) - start_of_call self) /\
  py_len (batch_y (fst (next self bs)))
  = py_len (batch_x (fst (next self bs))) /\
  py_len (batch_seqlen (fst (next self bs)))
  = py_len (batch_x (fst (next self bs))) /\
  (batch_x (fst (next self bs)) = [] <-> py_len (data self) = 0 \/ bs = 0).
Proof.
  intros Hp Hc Hbs.
  destruct (start_of_call_range self Hc) as [Hr Hlt].
  rewrite (next_upto self bs Hp Hc Hbs).
  unfold batch_x, batch_y, batch_seqlen. cbn [fst snd].
  destruct Hp as [Hl Hs].
  assert (Hlen : forall (X : Type) (l : list X),
             length l = length (data self) ->
             py_len (firstn (Z.to_nat bs)
                       (skipn (Z.to_nat (start_of_call self)) l))
             = Z.min bs (py_len (data self) - start_of_call self)).
  { intros X l Hll. unfold py_len in *.
    rewrite length_firstn, length_skipn, Hll. lia. }
  rewrite (Hlen _ (data self) eq_refl), (Hlen _ (labels self) Hl),
    (Hlen _ (seqlen self) Hs).
  split; [reflexivity |]. split; [reflexivity |]. split; [reflexivity |].
  pose proof (Hlen _ (data self) eq_refl) as Hd.
  split.
  - intros Hnil. rewrite Hnil in Hd. cbn in Hd.
    destruct (Z.eq_dec (py_len (data self)) 0) as [H0 | H0]; [now left |].
    right. unfold py_len in *. lia.
  - intros H0. apply length_zero_iff_nil.
    unfold py_len in *. lia.
Qed.

Lemma next_batch_length_witness :
  parallel toy3 /\ cursor_in_range toy3 /\ 0 <= 2 /\
  py_len (batch_x (fst (next toy3 2))) = Z.min 2 (py_len (data toy3) - 0).
Proof.
  assert (Hp : parallel toy3) by (split; reflexivity).
  assert (Hc : cursor_in_range toy3) by (unfold cursor_in_range; cbn; lia).
  assert (Hb : 0 <= 2) by lia.
  split; [exact Hp |]. split; [exact Hc |]. split; [exact Hb |].
  exact (proj1 (next_batch_length toy3 2 Hp Hc Hb)).
Defined.

(** ** Runs of calls of one size *)

Lemma set_batch_id_same (self : ToySequenceData) :
  set_batch_id self (batch_id self) = self.
Proof. now destruct self. Qed.

Lemma batches_app (sizes1 sizes2 : list Z) :
  forall self,
    batches self (sizes1 ++ sizes2) =
    batches self sizes1 ++ batches (next_calls self sizes1) sizes2.
Proof.
  induction sizes1 as [| b sizes1 IH]; intros self; [reflexivity |].
  cbn [app batches next_calls]. now rewrite IH.
Qed.

(** [j] calls of size [bs] that all start before the end hand out the next
    [j * bs] items (as many as there are) and leave the cursor at
    [min (c + j * bs) N]. *)
Lemma run_of_calls (bs : Z) (j : nat) :
  1 <= bs ->
  forall self,
    parallel self -> cursor_in_range self ->
    batch_id self < py_len (data self) \/ j = 0%nat ->
    batch_id self + (Z.of_nat j - 1) * bs < py_len (data self) \/ j = 0%nat ->
    let c := Z.to_nat (batch_id self) in
    let run := batches self (repeat bs j) in
    concat (map batch_x run)
    = firstn (j * Z.to_nat bs) (skipn c (data self)) /\
    concat (map batch_y run)
    = firstn (j * Z.to_nat bs) (skipn c (labels self)) /\
    concat (map batch_seqlen run)
    = firstn (j * Z.to_nat bs) (skipn c (seqlen self)) /\
    next_calls self (repeat bs j)
    = set_batch_id self
        (Z.min (batch_id self + Z.of_nat j * bs) (py_len (data self))).
Proof.
  intros Hbs. induction j as [| j IH]; intros self Hp Hc Hlt Hend; cbv zeta.
  - cbn. unfold cursor_in_range in Hc.
    rewrite Z.min_l by lia. rewrite Z.add_0_r, set_batch_id_same. auto.
  - destruct Hlt as [Hlt | Hj]; [| discriminate Hj].
    destruct Hend as [Hend | Hj]; [| discriminate Hj].
    assert (Hstart : start_of_call self = batch_id self).
    { unfold start_of_call.
      destruct (Z.eqb_spec (batch_id self) (py_len (data self))); lia. }
    pose proof (next_upto self bs Hp Hc ltac:(lia)) as Hnext.
    cbv zeta in Hnext. rewrite Hstart in Hnext.
    set (N := py_len (data self)) in *.
    set (self1 := set_batch_id self (Z.min (batch_id self + bs) N)) in *.
    assert (Hp1 : parallel self1) by exact Hp.
    assert (Hc1 : cursor_in_range self1).
    { unfold cursor_in_range in *. cbn. fold N. lia. }
    assert (Hlt1 : batch_id self1 < py_len (data self1) \/ j = 0%nat).
    { destruct j; [now right | left]. cbn. fold N. nia. }
    assert (Hend1 : batch_id self1 + (Z.of_nat j - 1) * bs
                    < py_len (data self1) \/ j = 0%nat).
    { destruct j; [now right | left]. cbn [self1 set_batch_id batch_id data].
      fold N. nia. }
    destruct (IH self1 Hp1 Hc1 Hlt1 Hend1) as (Hx & Hy & Hq & Hst).
    cbv zeta in Hx, Hy, Hq.
    cbn [repeat batches next_calls map concat]. rewrite Hnext.
    cbn [fst snd]. fold self1.
    unfold batch_x at 1, batch_y at 1, batch_seqlen at 1. cbn [fst snd].
    rewrite Hx, Hy, Hq, Hst.
    assert (Hskip : forall (X : Type) (l : list X),
               length l = length (data self) ->
               skipn (Z.to_nat (batch_id self1)) l
               = skipn (Z.to_nat bs) (skipn (Z.to_nat (batch_id self)) l)).
    { intros X l Hl. rewrite <- skipn_plus.
      unfold cursor_in_range in Hc. cbn [self1 set_batch_id batch_id].
      destruct (Z.le_gt_cases (batch_id self + bs) N) as [Hle | Hgt].
      - rewrite Z.min_l by lia. f_equal. lia.
      - rewrite Z.min_r by lia.
        apply skipn_beyond; unfold N, py_len in *; lia. }
    destruct Hp as [Hl Hs].
    cbn [self1 set_batch_id data labels seqlen].
    rewrite (Hskip _ (data self) eq_refl), (Hskip _ (labels self) Hl),
      (Hskip _ (seqlen self) Hs).
    replace (S j * Z.to_nat bs)%nat with (Z.to_nat bs + j * Z.to_nat bs)%nat
      by lia.
    rewrite !firstn_plus.
    repeat (split; [reflexivity |]).
    unfold set_batch_id. cbn [self1 set_batch_id data labels seqlen batch_id].
    f_equal. fold N. unfold cursor_in_range in Hc. nia.
Qed.

Lemma epoch_calls_spec (N bs : Z) :
  0 <= N -> 1 <= bs ->
  N <= Z.of_nat (epoch_calls N bs) * bs /\
  ((Z.of_nat (epoch_calls N bs) - 1) * bs < N \/ epoch_calls N bs = 0%nat) /\
  (N = 0 -> epoch_calls N bs = 0%nat).
Proof.
  intros HN Hbs. unfold epoch_calls.
  pose proof (Z.mul_div_le (N + bs - 1) bs ltac:(lia)) as Hle.
  pose proof (Z.mul_succ_div_gt (N + bs - 1) bs ltac:(lia)) as Hgt.
  assert (Hq : 0 <= (N + bs - 1) / bs) by (apply Z.div_pos; lia).
  rewrite Z2Nat.id by lia.
  split; [nia |]. split.
  - left. nia.
  - intros ->. replace (0 + bs - 1) with (bs - 1) by lia.
    rewrite Z.div_small by lia. reflexivity.
Qed.

(** A reader that stands at the end behaves as one that stands at the
    start. *)
Lemma next_from_end (self : ToySequenceData) (b : Z) :
  batch_id self = 0 ->
  next (set_batch_id self (py_len (data self))) b = next self b.
Proof.
  intros H0. rewrite !next_unfold. cbv zeta.
  cbn [set_batch_id data labels seqlen batch_id].
  rewrite Z.eqb_refl, H0.
  destruct (0 =? py_len (data self)); reflexivity.
Qed.

Lemma batches_from_end (self : ToySequenceData) (sizes : list Z) :
  batch_id self = 0 ->
  batches (set_batch_id self (py_len (data self))) sizes = batches self sizes.
Proof.
  intros H0. destruct sizes as [| b sizes]; [reflexivity |].
  cbn [batches]. now rewrite next_from_end.
Qed.

Lemma epoch_end (self : ToySequenceData) (bs : Z) :
  parallel self -> batch_id self = 0 -> 1 <= bs ->
  let N := py_len (data self) in
  let run := batches self (repeat bs (epoch_calls N bs)) in
  concat (map batch_x run) = data self /\
  concat (map batch_y run) = labels self /\
  concat (map batch_seqlen run) = seqlen self /\
  next_calls self (repeat bs (epoch_calls N bs)) = set_batch_id self N.
Proof.
  intros Hp H0 Hbs. cbv zeta.
  set (N := py_len (data self)).
  assert (HN : 0 <= N) by (unfold N, py_len; lia).
  destruct (epoch_calls_spec N bs HN Hbs) as (Hge & Hlt & Hzero).
  assert (Hc : cursor_in_range self)
    by (unfold cursor_in_range; fold N; lia).
  destruct (run_of_calls bs (epoch_calls N bs) Hbs self Hp Hc)
    as (Hx & Hy & Hq & Hst).
  - fold N. destruct (Z.eq_dec N 0) as [HN0 | HN0]; [right; auto | left; lia].
  - fold N. rewrite H0. destruct Hlt as [Hlt | Hk]; [left; lia | now right].
  - cbv zeta in Hx, Hy, Hq. rewrite H0 in Hx, Hy, Hq, Hst.
    cbn [Z.to_nat skipn] in Hx, Hy, Hq. destruct Hp as [Hl Hs].
    rewrite Hx, Hy, Hq, Hst.
    rewrite !firstn_all2 by (unfold N, py_len in *; nia).
    fold N. rewrite Z.min_r by lia. auto.
Qed.

(** X1: on parallel collections, from a cursor at 0 and with a batch size
    of at least 1, the ceil(N / batchSize) calls of one pass hand out every
    sequence, every label and every true length exactly once and in order
    (the batches, laid end to end, are the three stored lists), and leave
    the cursor at N. *)
Theorem epoch_covers_dataset (self : ToySequenceData) (bs : Z) :
  parallel self -> batch_id self = 0 -> 1 <= bs ->
  concat (map batch_x
            (batches self (repeat bs (epoch_calls (py_len (data self)) bs))))
  = data self /\
  concat (map batch_y
            (batches self (repeat bs (epoch_calls (py_len (data self)) bs))))
  = labels self /\
  concat (map batch_seqlen
            (batches self (repeat bs (epoch_calls (py_len (data self)) bs))))
  = seqlen self /\
  batch_id (next_calls self
              (repeat bs (epoch_calls (py_len (data self)) bs)))
  = py_len (data self).
Proof.
  intros Hp H0 Hbs.
  destruct (epoch_end self bs Hp H0 Hbs) as (Hx & Hy & Hq & Hst).
  cbv zeta in Hx, Hy, Hq, Hst.
  split; [exact Hx |]. split; [exact Hy |]. split; [exact Hq |].
  now rewrite Hst.
Qed.

Lemma epoch_covers_dataset_witness :
  parallel toy3 /\ batch_id toy3 = 0 /\ 1 <= 2 /\
  concat (map batch_x (batches toy3 (repeat 2 (epoch_calls 3 2))))
  = data toy3.
Proof.
  assert (Hp : parallel toy3) by (split; reflexivity).
  assert (Hb : 1 <= 2) by lia.
  split; [exact Hp |]. split; [reflexivity |]. split; [exact Hb |].
  exact (proj1 (epoch_covers_dataset toy3 2 Hp eq_refl Hb)).
Defined.

(** X4: with a fixed batch size of at least 1 the passes repeat: after the
    ceil(N / batchSize) calls of a first pass, the calls that follow return
    what the same calls return on the fresh reader. The batches of the
    training loop are those of one pass, over and over. *)
Theorem epochs_repeat (self : ToySequenceData) (bs : Z) (n : nat) :
  parallel self -> batch_id self = 0 -> 1 <= bs ->
  batches self (repeat bs (epoch_calls (py_len (data self)) bs + n))
  = batches self (repeat bs (epoch_calls (py_len (data self)) bs))
    ++ batches self (repeat bs n).
Proof.
  intros Hp H0 Hbs.
  destruct (epoch_end self bs Hp H0 Hbs) as (_ & _ & _ & Hst).
  cbv zeta in Hst.
  rewrite repeat_app, batches_app, Hst.
  now rewrite batches_from_end.
Qed.

Lemma epochs_repeat_witness :
  parallel toy3 /\ batch_id toy3 = 0 /\ 1 <= 2 /\
  batches toy3 (repeat 2 (epoch_calls 3 2 + 3))
  = batches toy3 (repeat 2 (epoch_calls 3 2)) ++ batches toy3 (repeat 2 3).
Proof.
  assert (Hp : parallel toy3) by (split; reflexivity).
  assert (Hb : 1 <= 2) by lia.
  split; [exact Hp |]. split; [reflexivity |]. split; [exact Hb |].
  exact (epochs_repeat toy3 2 3 Hp eq_refl Hb).
Defined.

(* ================================================================== *)
(** * Part VI: the generator and its callers *)
(* ================================================================== *)

(** ** The shape of what one iteration builds *)







(** ** Random sequences *)

Lemma float_of_int_zero : float_of_int 0 = Ok f_zero.
Proof. reflexivity. Qed.

(** A quotient by [max_value] exists only when [max_value] is not zero. *)
Lemma scaled_Ok_nonzero max_value i v :
  scaled max_value i = Ok v -> max_value <> 0.
Proof.
  intros H ->. unfold scaled, rbind in H.
  destruct (float_of_int i); [| discriminate].
  cbn in H. discriminate.
Qed.

(** X5: in every generated dataset, at every index whose label is the
    "random" one, each of the first trueLengths[i] values of the sequence
    is the float quotient float(r) / maxValue of an integer r drawn from
    [0, maxValue]; when there is such a value, maxValue >= 1. *)
Theorem random_sequences (N maxLen minLen maxValue : Z) g d g' i len s :
  __init__ N maxLen minLen maxValue g = Ok (d, g') ->
  nth_error (seqlen d) i = Some len ->
  nth_error (data d) i = Some s ->
  nth_error (labels d) i = Some label_random ->
  (forall k, 0 <= k < len ->
     exists r q, 0 <= r <= maxValue /\
                 scaled maxValue r = Ok [q] /\
                 nth_error s (Z.to_nat k) = Some [q]) /\
  (1 <= len -> 1 <= maxValue).
Proof.
  intros H Hlen Hseq Hlab.
  assert (Hi : (i < length (labels d))%nat)
    by (apply nth_error_Some; congruence).
  destruct (init_entry _ _ _ _ _ _ _ i H (or_intror (or_introl Hi)))
    as (len' & s' & l & gi & gi' & Hlen' & Hseq' & Hlab' & _ & Hone).
  assert (len' = len) by congruence. assert (s' = s) by congruence.
  assert (l = label_random) by congruence. subst len' s' l.
  destruct (sample_Ok _ _ _ _ _ _ _ _ Hone)
    as (_ & _ & vals & -> & Hvals &
        [(_ & Hl & _) | (_ & _ & Hr)]);
    [symmetry in Hl; now apply labels_differ in Hl |].
  rewrite Forall_forall in Hr.
  assert (Hq : forall k, 0 <= k < len ->
             exists r q, 0 <= r <= maxValue /\
                         scaled maxValue r = Ok [q] /\
                         nth_error (vals ++ padding maxLen len) (Z.to_nat k)
                         = Some [q]).
  { intros k Hk.
    destruct (nth_error vals (Z.to_nat k)) as [v |] eqn:Hv;
      [| apply nth_error_None in Hv; lia].
    destruct (Hr v (nth_error_In _ _ Hv)) as (r & Hrange & Hs).
    destruct (scaled_Ok _ _ _ Hs) as (q & ->).
    exists r, q. split; [exact Hrange |]. split; [exact Hs |].
    rewrite nth_error_app1 by lia. exact Hv. }
  split; [exact Hq |].
  intros Hpos. destruct (Hq 0) as (r & q & Hrange & Hs & _); [lia |].
  pose proof (scaled_Ok_nonzero _ _ _ Hs). lia.
Qed.

Lemma random_sequences_witness :
  __init__ 2 5 2 10 (replay demo_tape)
  = Ok (demo_dataset, mkRng (tape (replay demo_tape)) 7) /\
  nth_error (labels demo_dataset) 1 = Some label_random /\
  (1 <= 2 -> 1 <= 10).
Proof.
  split; [exact demo_run |]. split; [reflexivity |].
  exact (proj2 (random_sequences 2 5 2 10 _ _ _ 1 2
                  (nth 1 (data demo_dataset) [])
                  demo_run eq_refl eq_refl eq_refl)).
Defined.

(** ** Two datasets from one random state *)

Lemma for_range_add (n k : nat) (body : ToySequenceData -> M ToySequenceData) :
  forall self g,
    for_range (n + k) body self g
    = (self' <- for_range n body self ;; for_range k body self') g.
Proof.
  induction n as [| n IH]; intros self g; [reflexivity |].
  cbn [Nat.add for_range]. unfold bind. cbv beta.
  destruct (body self g) as [[self1 g1] | e]; [| reflexivity].
  rewrite IH. reflexivity.
Qed.

(** A loop that starts from a filled object appends what the loop from the
    empty object builds. *)
Lemma for_range_from (maxLen minLen maxValue : Z) (k : nat) :
  forall self g,
    for_range k (loop_body maxLen minLen maxValue) self g
    = match for_range k (loop_body maxLen minLen maxValue)
              (mkToySequenceData [] [] [] 0) g with
      | Ok (d, g') =>
          Ok (mkToySequenceData (data self ++ data d) (labels self ++ labels d)
                (seqlen self ++ seqlen d) (batch_id self), g')
      | Raise e => Raise e
      end.
Proof.
  induction k as [| k IH]; intros self g.
  - cbn. unfold ret. rewrite !app_nil_r. now destruct self.
  - cbn [for_range]. unfold bind at 1 2. unfold loop_body at 1 3.
    unfold bind at 1 2.
    destruct (sample maxLen minLen maxValue g) as [[[[len s] l] g1] | e];
      [| reflexivity].
    unfold ret at 1 2.
    rewrite (IH (append_sample self (len, s, l))).
    rewrite (IH (append_sample (mkToySequenceData [] [] [] 0) (len, s, l))).
    destruct (for_range k (loop_body maxLen minLen maxValue)
                (mkToySequenceData [] [] [] 0) g1) as [[d g2] | e];
      [| reflexivity].
    cbn. now rewrite <- !app_assoc.
Qed.

(** X6: building a dataset of N samples and then one of K samples from the
    state of [random] that the first leaves, as the notebook does for
    [trainset] and [testset], gives the two parts of the dataset of N + K
    samples built from the initial state: same sequences, labels and true
    lengths, same final state, and the same exception when one of them
    raises. *)
Theorem train_then_test_splits (N K maxLen minLen maxValue : Z) g :
  0 <= N -> 0 <= K ->
  __init__ (N + K) maxLen minLen maxValue g
  = match train_then_test N K maxLen minLen maxValue g with
    | Ok ((trainset, testset), g') => Ok (append_datasets trainset testset, g')
    | Raise e => Raise e
    end.
Proof.
  intros HN HK. unfold train_then_test, __init__.
  replace (Z.to_nat (N + K)) with (Z.to_nat N + Z.to_nat K)%nat by lia.
  unfold bind at 1. rewrite for_range_add.
  unfold bind at 1 2 3.
  destruct (for_range (Z.to_nat N) (loop_body maxLen minLen maxValue)
              (mkToySequenceData [] [] [] 0) g) as [[d1 g1] | e];
    [| reflexivity].
  unfold ret at 2. unfold bind at 1 2.
  rewrite (for_range_from maxLen minLen maxValue (Z.to_nat K) d1 g1).
  destruct (for_range (Z.to_nat K) (loop_body maxLen minLen maxValue)
              (mkToySequenceData [] [] [] 0) g1) as [[d2 g2] | e];
    reflexivity.
Qed.

Lemma train_then_test_splits_witness :
  0 <= 1 /\ 0 <= 1 /\
  __init__ (1 + 1) 5 2 10 (replay demo_tape)
  = match train_then_test 1 1 5 2 10 (replay demo_tape) with
    | Ok ((trainset, testset), g') => Ok (append_datasets trainset testset, g')
    | Raise e => Raise e
    end.
Proof.
  assert (H : 0 <= 1) by lia.
  split; [exact H |]. split; [exact H |].
  exact (train_then_test_splits 1 1 5 2 10 (replay demo_tape) H H).
Defined.

(** ** A value bound that is not positive *)

Lemma py_range_cons (a b : Z) : a < b -> py_range a b = a :: py_range (a + 1) b.
Proof.
  intros Hab. unfold py_range.
  replace (Z.to_nat (b - a)) with (S (Z.to_nat (b - (a + 1)))) by lia.
  cbn [seq map]. f_equal; [lia |].
  rewrite <- seq_shift, map_map. apply map_ext. intros k. lia.
Qed.

Lemma mapM_Raise_first {A B : Type} (f : A -> M B) x l g e :
  f x g = Raise e -> mapM f (x :: l) g = Raise e.
Proof. intros H. cbn. unfold bind. now rewrite H. Qed.

(** The first iteration, for [max_value <= 0] and lengths of at least 1:
    the linear branch asks [randint] for an empty range, the random branch
    does so when [max_value < 0] and divides by zero when [max_value = 0]. *)
Lemma sample_Raise_nonpositive maxLen minLen maxValue g :
  maxValue <= 0 -> 1 <= minLen -> minLen <= maxLen ->
  exists linear,
    takes_linear_branch maxLen minLen g = Ok linear /\
    sample maxLen minLen maxValue g
    = Raise (if negb linear && (maxValue =? 0)
             then ZeroDivisionError else ValueError).
Proof.
  intros Hmax Hmin Hle.
  destruct (randint_total minLen maxLen g Hle) as (len & g1 & Hlen & Hr).
  destruct (random_total g1) as (u & g2 & Hu).
  exists (float_lt u f_half).
  split; [exact (branch_of_steps _ _ _ _ _ _ _ Hlen Hu) |].
  unfold sample.
  rewrite (bind_run _ _ _ _ _ Hlen), (bind_run _ _ _ _ _ Hu).
  destruct (float_lt u f_half); cbn [negb andb].
  - unfold bind. now rewrite randint_empty by lia.
  - rewrite py_range_cons by lia.
    unfold bind at 1.
    rewrite (mapM_Raise_first _ _ _ _
               (if maxValue =? 0 then ZeroDivisionError else ValueError));
      [reflexivity |].
    destruct (Z.eqb_spec maxValue 0) as [-> | Hneq].
    + destruct (randint_total 0 0 g2) as (r & g3 & Hrand & Hrr); [lia |].
      rewrite (bind_run _ _ _ _ _ Hrand).
      replace r with 0 by lia. reflexivity.
    + unfold bind. now rewrite randint_empty by lia.
Qed.

(** X7: with maxValue <= 0 and 1 <= minLen <= maxLen the generator never
    returns a dataset of N >= 1 samples: its first iteration raises
    ValueError (random.randint on an empty range), except when
    maxValue = 0 and the iteration takes the random branch, where the
    division float(0) / 0 raises ZeroDivisionError. *)
Theorem init_nonpositive_max_value (N maxLen minLen maxValue : Z) g :
  maxValue <= 0 -> 1 <= minLen -> minLen <= maxLen -> 1 <= N ->
  exists linear,
    takes_linear_branch maxLen minLen g = Ok linear /\
    __init__ N maxLen minLen maxValue g
    = Raise (if negb linear && (maxValue =? 0)
             then ZeroDivisionError else ValueError).
Proof.
  intros Hmax Hmin Hle HN.
  destruct (sample_Raise_nonpositive maxLen minLen maxValue g Hmax Hmin Hle)
    as (linear & Hb & Hs).
  exists linear. split; [exact Hb |].
  apply (init_Raise _ _ _ _ _ 0%nat g); [lia | reflexivity | exact Hs].
Qed.

Lemma init_nonpositive_max_value_witness :
  0 <= 0 /\ 1 <= 3 /\ 3 <= 20 /\ 1 <= 1000 /\
  exists linear,
    takes_linear_branch 20 3 (replay [0; 2 ^ 52]) = Ok linear /\
    __init__ 1000 20 3 0 (replay [0; 2 ^ 52])
    = Raise (if negb linear && (0 =? 0) then ZeroDivisionError
             else ValueError).
Proof.
  assert (H0 : 0 <= 0) by lia. assert (H1 : 1 <= 3) by lia.
  assert (H2 : 3 <= 20) by lia. assert (H3 : 1 <= 1000) by lia.
  split; [exact H0 |]. split; [exact H1 |]. split; [exact H2 |].
  split; [exact H3 |].
  exact (init_nonpositive_max_value 1000 20 3 0 (replay [0; 2 ^ 52])
           H0 H1 H2 H3).
Defined.

(* ================================================================== *)
(** * Part VII: more on the last relevant output *)
(* ================================================================== *)

Lemma list_eq_nth {X : Type} (l : list X) :
  forall l', (forall i, nth_error l i = nth_error l' i) -> l = l'.
Proof.
  induction l as [| x l IH]; intros [| y l'] H.
  - reflexivity.
  - specialize (H 0%nat). discriminate H.
  - specialize (H 0%nat). discriminate H.
  - pose proof (H 0%nat) as H0. cbn in H0. injection H0 as ->.
    f_equal. apply IH. intros i. exact (H (S i)).
Qed.

(** X8: the gather reads one timestep per sequence. Two well-shaped
    batches that agree, for every sequence b, at timestep
    trueLengths[b] - 1 give the same result, whatever they hold at the
    other timesteps: what stands in the padded steps does not reach the
    output. *)
Theorem gather_ignores_other_steps {A : Type} (maxLen H : Z) (B : nat)
  (outputs outputs' : list (list (list A))) (seqlen : list Z) :
  shape3 maxLen H B outputs -> shape3 maxLen H B outputs' ->
  0 < H -> int32_indexable maxLen B -> valid_lengths maxLen B seqlen ->
  (forall b s s' t,
      nth_error outputs b = Some s -> nth_error outputs' b = Some s' ->
      nth_error seqlen b = Some t ->
      nth_error s (Z.to_nat (t - 1)) = nth_error s' (Z.to_nat (t - 1))) ->
  dynamicRNN_outputs maxLen H outputs seqlen
  = dynamicRNN_outputs maxLen H outputs' seqlen.
Proof.
  intros Hs Hs' HH HI Hv Hagree.
  destruct (dynamicRNN_outputs_valid maxLen H B outputs seqlen Hs HH HI Hv)
    as (out & -> & Hlen & Hrows).
  destruct (dynamicRNN_outputs_valid maxLen H B outputs' seqlen Hs' HH HI Hv)
    as (out' & -> & Hlen' & Hrows').
  f_equal. apply list_eq_nth. intros b.
  destruct (Nat.lt_ge_cases b B) as [Hb | Hb].
  - destruct Hs as [HB _]. destruct Hs' as [HB' _]. destruct Hv as [HL _].
    destruct (nth_error outputs b) as [s |] eqn:Es;
      [| apply nth_error_None in Es; lia].
    destruct (nth_error outputs' b) as [s' |] eqn:Es';
      [| apply nth_error_None in Es'; lia].
    destruct (nth_error seqlen b) as [t |] eqn:Et;
      [| apply nth_error_None in Et; lia].
    destruct (Hrows b s t Es Et) as (row & -> & Hrow & _).
    destruct (Hrows' b s' t Es' Et) as (row' & -> & Hrow' & _).
    rewrite (Hagree b s s' t Es Es' Et) in Hrow. congruence.
  - rewrite (proj2 (nth_error_None out b)) by lia.
    rewrite (proj2 (nth_error_None out' b)) by lia. reflexivity.
Qed.

Lemma scenario_zeroed_shape : shape3 5 1 2 scenario_zeroed.
Proof. split; [reflexivity |]. repeat constructor. Qed.

Lemma gather_ignores_other_steps_witness :
  shape3 5 1 2 scenario_outputs /\ shape3 5 1 2 scenario_zeroed /\
  0 < 1 /\ int32_indexable 5 2 /\ valid_lengths 5 2 scenario_lengths /\
  dynamicRNN_outputs 5 1 scenario_outputs scenario_lengths
  = dynamicRNN_outputs 5 1 scenario_zeroed scenario_lengths.
Proof.
  split; [exact scenario_shape |]. split; [exact scenario_zeroed_shape |].
  split; [exact Z.lt_0_1 |].
  split; [exact scenario_indexable |]. split; [exact scenario_valid |].
  apply (gather_ignores_other_steps 5 1 2 scenario_outputs scenario_zeroed
           scenario_lengths scenario_shape scenario_zeroed_shape Z.lt_0_1
           scenario_indexable scenario_valid).
  intros [| [| b]] s s' t Hs Hs' Ht; cbn in Hs, Hs', Ht.
  - injection Hs as <-. injection Hs' as <-. injection Ht as <-. reflexivity.
  - injection Hs as <-. injection Hs' as <-. injection Ht as <-. reflexivity.
  - destruct b; discriminate Ht.
Defined.

(** X9: a vector of true lengths whose length is neither the batch size
    nor 1, for a batch of a size other than 1, is rejected before any row
    is read: the sum that builds the index vector has incompatible
    shapes. *)
Theorem seqlen_shape_mismatch {A : Type} (maxLen H : Z)
  (outputs : list (list (list A))) (seqlen : list Z) :
  length seqlen <> length outputs ->
  length seqlen <> 1%nat -> length outputs <> 1%nat ->
  dynamicRNN_outputs maxLen H outputs seqlen = Raise InvalidArgumentError.
Proof.
  intros Hne Hs1 Ho1. unfold dynamicRNN_outputs, tf_shape0, index, tf_add.
  set (u := tf_mul_scalar (tf_range (py_len outputs)) maxLen).
  set (v := tf_sub_scalar seqlen 1).
  assert (Hu : length u = length outputs).
  { unfold u, tf_mul_scalar, tf_range, py_len.
    rewrite length_map, py_range_length. lia. }
  assert (Hv : length v = length seqlen)
    by (unfold v, tf_sub_scalar; now rewrite length_map).
  destruct (Nat.eqb_spec (length u) (length v)) as [Heq | _]; [lia |].
  destruct u as [| x [| x' u]]; [| cbn in Hu; lia |];
    (destruct v as [| y [| y' v]]; [| cbn in Hv; lia |]; reflexivity).
Qed.

Lemma seqlen_shape_mismatch_witness :
  length [3; 1; 2] <> length scenario_outputs /\
  length [3; 1; 2] <> 1%nat /\ length scenario_outputs <> 1%nat /\
  dynamicRNN_outputs 5 1 scenario_outputs [3; 1; 2]
  = Raise InvalidArgumentError.
Proof.
  assert (H1 : length [3; 1; 2] <> length scenario_outputs) by (cbn; lia).
  assert (H2 : length [3; 1; 2] <> 1%nat) by (cbn; lia).
  assert (H3 : length scenario_outputs <> 1%nat) by (cbn; lia).
  split; [exact H1 |]. split; [exact H2 |]. split; [exact H3 |].
  exact (seqlen_shape_mismatch 5 1 scenario_outputs [3; 1; 2] H1 H2 H3).
Defined.

(* ================================================================== *)
(** * Part VIII: the whole of dynamicRNN *)
(* ================================================================== *)

(** ** Lists of rows *)

Lemma combine_map_same {R A B : Type} (a : R -> A) (b : R -> B) (l : list R) :
  combine (map a l) (map b l) = map (fun r => (a r, b r)) l.
Proof.
  induction l as [| r l IH]; [reflexivity |].
  cbn [map combine]. now rewrite IH.
Qed.

Lemma map_fst_combine {A B : Type} (l : list A) :
  forall l' : list B, length l = length l' -> map fst (combine l l') = l.
Proof.
  induction l as [| a l IH]; intros [| b l'] H; try discriminate;
    [reflexivity |].
  cbn. f_equal. apply IH. cbn in H. lia.
Qed.

Lemma map_snd_combine {A B : Type} (l : list A) :
  forall l' : list B, length l = length l' -> map snd (combine l l') = l'.
Proof.
  induction l as [| a l IH]; intros [| b l'] H; try discriminate;
    [reflexivity |].
  cbn. f_equal. apply IH. cbn in H. lia.
Qed.

Lemma map_const_repeat {R A : Type} (a : A) (l : list R) :
  map (fun _ => a) l = repeat a (length l).
Proof. induction l as [| r l IH]; [reflexivity |]. cbn. now rewrite IH. Qed.

Lemma cons_hd_tl {A : Type} (d : A) (l : list A) :
  l <> [] -> l = hd d l :: tl l.
Proof. destruct l; [congruence | reflexivity]. Qed.

Lemma nth_error_last {A : Type} (d : A) (l : list A) :
  l <> [] -> nth_error l (length l - 1) = Some (last l d).
Proof.
  induction l as [| a l IH]; intros Hl; [congruence |].
  destruct l as [| b l]; [reflexivity |].
  cbn [length] in *. replace (S (S (length l)) - 1)%nat
    with (S (S (length l) - 1)) by lia.
  cbn [nth_error]. rewrite IH by discriminate. reflexivity.
Qed.

(** ** Unstacking *)

Lemma uncons_rows_map {R A : Type} (xs : R -> list (list A)) (l : list R) :
  (forall r, In r l -> xs r <> []) ->
  uncons_rows (map xs l)
  = Ok (map (fun r => hd [] (xs r)) l, map (fun r => tl (xs r)) l).
Proof.
  induction l as [| r l IH]; intros H; [reflexivity |].
  cbn [map uncons_rows].
  pose proof (H r (or_introl eq_refl)) as Hr.
  destruct (xs r) as [| a rest]; [congruence |].
  rewrite IH by (intros r' Hin; apply H; now right). reflexivity.
Qed.

Lemma forallb_is_nil {R A : Type} (xs : R -> list A) (l : list R) :
  (forall r, In r l -> xs r = []) -> forallb is_nil (map xs l) = true.
Proof.
  intros H. apply forallb_forall. intros y Hy.
  apply in_map_iff in Hy. destruct Hy as (r & <- & Hr).
  now rewrite (H r Hr).
Qed.

Lemma length_zero_nil {A : Type} (l : list A) : length l = 0%nat -> l = [].
Proof. now destruct l. Qed.

(** Unstacking rows of length [T] gives [T] slices, and their columns are
    the rows again. *)
Lemma unstack_columns {R A : Type} (T : nat) :
  forall (xs : R -> list (list A)) (l : list R),
    (forall r, In r l -> length (xs r) = T) ->
    exists tm,
      tf_unstack1 T (map xs l) = Ok tm /\
      length tm = T /\
      Forall (fun y => length y = length l) tm /\
      columns (length l) tm = Ok (map xs l).
Proof.
  induction T as [| T IH]; intros xs l Hlen.
  - exists []. cbn [tf_unstack1].
    assert (Hnil : forall r, In r l -> xs r = [])
      by (intros r Hr; apply length_zero_nil; now apply Hlen).
    rewrite (forallb_is_nil xs l Hnil).
    split; [reflexivity |]. split; [reflexivity |]. split; [constructor |].
    cbn [columns]. f_equal. rewrite <- map_const_repeat.
    apply map_ext_in. intros r Hr. now rewrite (Hnil r Hr).
  - assert (Hne : forall r, In r l -> xs r <> []).
    { intros r Hr Heq. specialize (Hlen r Hr). rewrite Heq in Hlen.
      discriminate Hlen. }
    destruct (IH (fun r => tl (xs r)) l) as (tm & Htm & HT & Hall & Hcols).
    { intros r Hr. specialize (Hlen r Hr).
      destruct (xs r); [discriminate Hlen | cbn in *; lia]. }
    exists (map (fun r => hd [] (xs r)) l :: tm).
    cbn [tf_unstack1]. rewrite (uncons_rows_map xs l Hne).
    cbn [rbind fst snd]. rewrite Htm. cbn [rbind].
    split; [reflexivity |]. split; [cbn; lia |].
    split; [constructor; [now rewrite length_map | exact Hall] |].
    cbn [columns]. rewrite Hcols. cbn [rbind].
    rewrite !length_map, Nat.eqb_refl, combine_map_same, map_map. f_equal.
    apply map_ext_in. intros r Hr. cbn [fst snd].
    symmetry. apply cons_hd_tl. now apply Hne.
Qed.

(** X10: for a batch [x] of B sequences of T >= 1 input rows each,
    transposing the stack of the T slices that [tf.unstack(x, T, 1)]
    returns gives [x] back; a sequence of another length makes the
    unstack raise. *)
Theorem unstack_stack_transpose {A : Type} (T : nat)
  (x : list (list (list A))) :
  (1 <= T)%nat ->
  (Forall (fun s => length s = T) x ->
   rbind (tf_unstack1 T x) (fun u => rbind (tf_stack u) tf_transpose10)
   = Ok x) /\
  ((exists s, In s x /\ length s <> T) ->
   tf_unstack1 T x = Raise ValueError).
Proof.
  intros HT. split.
  - intros Hall. rewrite Forall_forall in Hall.
    destruct (unstack_columns T (fun s : list (list A) => s) x)
      as (tm & Htm & Hlen & Hrows & Hcols); [exact Hall |].
    rewrite map_id in Htm, Hcols. rewrite Htm. cbn [rbind].
    destruct tm as [| y tm]; [cbn in Hlen; lia |].
    cbn [tf_stack rbind tf_transpose10].
    inversion Hrows as [| ? ? Hy _]; subst. rewrite Hy. exact Hcols.
  - clear HT. revert x. induction T as [| T IH]; intros x (s & Hin & Hs).
    + cbn [tf_unstack1].
      destruct (forallb is_nil x) eqn:Hf; [| reflexivity].
      rewrite forallb_forall in Hf. specialize (Hf s Hin).
      destruct s; [cbn in Hs; congruence | discriminate Hf].
    + cbn [tf_unstack1].
      destruct (uncons_rows x) as [[hs ts] |] eqn:Hu.
      * cbn [rbind fst snd]. rewrite IH; [reflexivity |].
        clear IH. revert hs ts Hu.
        induction x as [| s0 x IHx]; intros hs ts Hu; [destruct Hin |].
        cbn [uncons_rows] in Hu. destruct s0 as [| a r]; [discriminate Hu |].
        destruct (uncons_rows x) as [[hs' ts'] |] eqn:Hu'; [| discriminate Hu].
        cbn [rbind fst snd] in Hu. injection Hu as <- <-.
        destruct Hin as [<- | Hin].
        -- exists r. split; [now left |]. cbn in Hs. lia.
        -- destruct (IHx Hin hs' ts' eq_refl) as (s' & Hin' & Hs').
           exists s'. split; [now right | exact Hs'].
      * cbn [rbind]. f_equal. clear IH Hin Hs s.
        induction x as [| s0 x IHx]; [discriminate Hu |].
        cbn [uncons_rows] in Hu. destruct s0 as [| a r]; [congruence |].
        destruct (uncons_rows x) as [[hs' ts'] |]; [discriminate Hu |].
        cbn [rbind] in Hu. injection Hu as <-. now apply IHx.
Qed.

Lemma unstack_stack_transpose_witness :
  (1 <= 3)%nat /\ Forall (fun s => length s = 3%nat) scenario_x /\
  rbind (tf_unstack1 3 scenario_x)
        (fun u => rbind (tf_stack u) tf_transpose10)
  = Ok scenario_x.
Proof.
  assert (H1 : (1 <= 3)%nat) by lia.
  assert (H2 : Forall (fun s => length s = 3%nat) scenario_x)
    by (repeat constructor).
  split; [exact H1 |]. split; [exact H2 |].
  exact (proj1 (unstack_stack_transpose 3 scenario_x H1) H2).
Defined.

(** ** The recurrence, row by row *)

Lemma split_map_pair {R A B : Type} (f : R -> A * B) (l : list R) :
  split (map f l) = (map (fun r => fst (f r)) l, map (fun r => snd (f r)) l).
Proof.
  induction l as [| r l IH]; [reflexivity |].
  cbn [map split]. rewrite IH. now destruct (f r).
Qed.

Lemma nth_error_firstn_lt {A : Type} (l : list A) :
  forall n i, (i < n)%nat -> nth_error (firstn n l) i = nth_error l i.
Proof.
  induction l as [| a l IH]; intros [| n] [| i] H; try reflexivity; try lia.
  cbn. apply IH. lia.
Qed.

Section WholeDynamicRNNProofs.
Context {X O S C : Type}.
Variables seq_max_len n_hidden : Z.
Variable lstm_cell : list X -> S -> list O * S.
Variable zero_state : S.
Variable zero : O.
Variable out_layer : list O -> list C.

Local Abbreviation row := (Z * list (list X) * S)%type.
Local Abbreviation cell_now time len x st :=
  (if len <=? time then (zero_output n_hidden zero, st) else lstm_cell x st).

Lemma rnn_step_rows (time : Z) (hs : row -> list X) (rows : list row) :
  rnn_step n_hidden lstm_cell zero time
    (map (fun r => fst (fst r)) rows) (map hs rows) (map snd rows)
  = (map (fun r => fst (cell_now time (fst (fst r)) (hs r) (snd r))) rows,
     map (fun r => snd (cell_now time (fst (fst r)) (hs r) (snd r))) rows).
Proof.
  unfold rnn_step.
  rewrite (combine_map_same (fun r : row => fst (fst r)) hs rows).
  rewrite (combine_map_same (fun r : row => (fst (fst r), hs r)) snd rows).
  rewrite map_map, split_map_pair. reflexivity.
Qed.

Lemma rnn_loop_rows (T : nat) :
  forall (rows : list row) (time : Z),
    (forall r, In r rows -> length (snd (fst r)) = T) ->
    exists tm outs,
      tf_unstack1 T (map (fun r => snd (fst r)) rows) = Ok tm /\
      Forall (fun y => length y = length rows) tm /\ length tm = T /\
      fst (rnn_loop n_hidden lstm_cell zero time
             (map (fun r => fst (fst r)) rows) tm (map snd rows)) = outs /\
      Forall (fun y => length y = length rows) outs /\ length outs = T /\
      columns (length rows) outs
      = Ok (map (fun r => fst (row_loop n_hidden lstm_cell zero time
                                 (fst (fst r)) (snd (fst r)) (snd r))) rows).
Proof.
  induction T as [| T IH]; intros rows time Hlen.
  - assert (Hnil : forall r, In r rows -> snd (fst r) = [])
      by (intros r Hr; apply length_zero_nil; now apply Hlen).
    exists [], []. cbn [tf_unstack1].
    rewrite (forallb_is_nil (fun r : row => snd (fst r)) rows Hnil).
    split; [reflexivity |]. split; [constructor |]. split; [reflexivity |].
    split; [reflexivity |]. split; [constructor |]. split; [reflexivity |].
    cbn [columns]. f_equal. rewrite <- map_const_repeat.
    apply map_ext_in. intros r Hr. now rewrite (Hnil r Hr).
  - assert (Hne : forall r, In r rows -> snd (fst r) <> []).
    { intros r Hr Heq. specialize (Hlen r Hr). rewrite Heq in Hlen.
      discriminate Hlen. }
    set (g := fun r : row =>
                (fst (fst r), tl (snd (fst r)),
                 snd (cell_now time (fst (fst r)) (hd [] (snd (fst r)))
                        (snd r)))).
    destruct (IH (map g rows) (time + 1))
      as (tm & outs & Htm & Hall & HT & Houts & Hoall & HoT & Hcols).
    { intros r Hr. apply in_map_iff in Hr. destruct Hr as (r0 & <- & Hr0).
      specialize (Hlen r0 Hr0). unfold g. cbn [fst snd].
      destruct (snd (fst r0)); [discriminate Hlen | cbn in *; lia]. }
    rewrite !map_map, length_map in *. unfold g in Htm, Houts, Hcols.
    cbn [fst snd] in Htm, Houts, Hcols.
    exists (map (fun r : row => hd [] (snd (fst r))) rows :: tm).
    exists (map (fun r : row =>
                   fst (cell_now time (fst (fst r)) (hd [] (snd (fst r)))
                          (snd r))) rows :: outs).
    cbn [tf_unstack1].
    rewrite (uncons_rows_map (fun r : row => snd (fst r)) rows Hne).
    cbn [rbind fst snd]. rewrite Htm. cbn [rbind].
    split; [reflexivity |].
    split; [constructor; [now rewrite length_map | exact Hall] |].
    split; [cbn; lia |].
    split.
    { cbn [rnn_loop].
      rewrite (rnn_step_rows time (fun r : row => hd [] (snd (fst r))) rows).
      destruct (rnn_loop n_hidden lstm_cell zero (time + 1)
                  (map (fun r : row => fst (fst r)) rows) tm
                  (map (fun r : row =>
                          snd (cell_now time (fst (fst r))
                                 (hd [] (snd (fst r))) (snd r))) rows))
        as [outs' final] eqn:Hloop.
      cbn [fst] in *. now rewrite Houts. }
    split; [constructor; [now rewrite length_map | exact Hoall] |].
    split; [cbn; lia |].
    cbn [columns]. rewrite Hcols. cbn [rbind].
    rewrite !length_map, Nat.eqb_refl, combine_map_same, map_map. f_equal.
    apply map_ext_in. intros r Hr. pose proof (Hne r Hr) as Hn.
    destruct r as [[len xs] st]. cbn [fst snd] in Hn |- *.
    destruct xs as [| x0 xs]; [congruence | reflexivity].
Qed.

Lemma row_loop_length (xs : list (list X)) :
  forall time len st,
    length (fst (row_loop n_hidden lstm_cell zero time len xs st)) = length xs.
Proof.
  induction xs as [| x xs IH]; intros time len st; [reflexivity |].
  cbn [row_loop fst length]. now rewrite IH.
Qed.

Lemma row_loop_width (xs : list (list X)) :
  0 <= n_hidden ->
  (forall x st, py_len (fst (lstm_cell x st)) = n_hidden) ->
  forall time len st,
    Forall (fun r => py_len r = n_hidden)
           (fst (row_loop n_hidden lstm_cell zero time len xs st)).
Proof.
  intros HH Hcell. induction xs as [| x xs IH]; intros time len st;
    [constructor |].
  cbn [row_loop fst]. constructor; [| apply IH].
  destruct (len <=? time); cbn [fst]; [| apply Hcell].
  unfold py_len, zero_output. rewrite repeat_length. lia.
Qed.

(** Before its true length a row gets what the cell computes. *)
Lemma row_loop_prefix (xs : list (list X)) :
  forall time len st k,
    time + Z.of_nat k < len ->
    nth_error (fst (row_loop n_hidden lstm_cell zero time len xs st)) k
    = nth_error (unroll lstm_cell xs st) k.
Proof.
  induction xs as [| x xs IH]; intros time len st k Hk; [reflexivity |].
  cbn [row_loop unroll fst snd].
  destruct (Z.leb_spec len time) as [Hle | Hlt]; [lia |].
  destruct k as [| k]; [reflexivity |].
  cbn [nth_error]. apply IH. lia.
Qed.

Lemma unroll_length (xs : list (list X)) :
  forall st, length (unroll lstm_cell xs st) = length xs.
Proof.
  induction xs as [| x xs IH]; intros st; [reflexivity |].
  cbn [unroll length]. now rewrite IH.
Qed.

Lemma unroll_firstn (xs : list (list X)) :
  forall n st,
    firstn n (unroll lstm_cell xs st) = unroll lstm_cell (firstn n xs) st.
Proof.
  induction xs as [| x xs IH]; intros [| n] st; try reflexivity.
  cbn [unroll firstn]. now rewrite IH.
Qed.

Lemma unroll_last (xs : list (list X)) (st : S) (t : nat) :
  (1 <= t <= length xs)%nat ->
  nth_error (unroll lstm_cell xs st) (t - 1)
  = Some (last (unroll lstm_cell (firstn t xs) st) []).
Proof.
  intros Ht.
  rewrite <- (nth_error_firstn_lt (unroll lstm_cell xs st) t (t - 1))
    by lia.
  rewrite unroll_firstn.
  assert (Hl : length (unroll lstm_cell (firstn t xs) st) = t).
  { rewrite unroll_length, length_firstn. lia. }
  rewrite <- Hl at 2. apply nth_error_last.
  intros Heq. rewrite Heq in Hl. cbn in Hl. lia.
Qed.

(** X11: on a batch of B sequences of seq_max_len rows with one true
    length in [1, seq_max_len] per sequence, dynamicRNN returns B rows, and
    row b is the output layer applied to the last output of the cell
    unrolled from the zero state over the first seqlen[b] rows of x[b]:
    neither the padding nor the other sequences enter it. *)
Theorem dynamicRNN_unrolls_valid_prefix (B : nat)
  (x : list (list (list X))) (seqlen : list Z) :
  length x = B ->
  Forall (fun s => py_len s = seq_max_len) x ->
  (forall i st, py_len (fst (lstm_cell i st)) = n_hidden) ->
  0 < n_hidden -> 1 <= seq_max_len ->
  int32_indexable seq_max_len B ->
  valid_lengths seq_max_len B seqlen ->
  exists out,
    dynamicRNN seq_max_len n_hidden lstm_cell zero_state zero out_layer
      x seqlen = Ok out /\
    length out = B /\
    forall b s t,
      nth_error x b = Some s -> nth_error seqlen b = Some t ->
      nth_error out b
      = Some (out_layer
                (last (unroll lstm_cell (firstn (Z.to_nat t) s) zero_state)
                      [])).
Proof.
  intros HB Hx Hcell HH HT HI Hvalid.
  pose proof Hvalid as [HL Hrange].
  rewrite Forall_forall in Hx, Hrange.
  set (rows := combine (combine seqlen x) (repeat zero_state B)).
  assert (Hc1 : length (combine seqlen x) = B)
    by (rewrite length_combine; lia).
  assert (Hrows : length rows = B).
  { unfold rows. rewrite length_combine, repeat_length. lia. }
  assert (Hlens : map (fun r : row => fst (fst r)) rows = seqlen).
  { rewrite <- (map_map fst fst). unfold rows.
    rewrite map_fst_combine by (rewrite repeat_length; lia).
    apply map_fst_combine. lia. }
  assert (Hxs : map (fun r : row => snd (fst r)) rows = x).
  { rewrite <- (map_map fst snd). unfold rows.
    rewrite map_fst_combine by (rewrite repeat_length; lia).
    apply map_snd_combine. lia. }
  assert (Hsts : map (@snd (Z * list (list X)) S) rows
                 = repeat zero_state B).
  { unfold rows. apply map_snd_combine. rewrite repeat_length. lia. }
  destruct (rnn_loop_rows (Z.to_nat seq_max_len) rows 0)
    as (tm & outs & Htm & Hall & HTm & Houts & Hoall & HoT & Hcols).
  { intros r Hr. assert (Hin : In (snd (fst r)) x).
    { rewrite <- Hxs. apply in_map_iff. now exists r. }
    specialize (Hx _ Hin). unfold py_len in Hx. lia. }
  rewrite Hxs in Htm. rewrite Hlens, Hsts in Houts. rewrite Hrows in *.
  set (rowfn := fun r : row =>
                  fst (row_loop n_hidden lstm_cell zero 0 (fst (fst r))
                         (snd (fst r)) (snd r))) in *.
  destruct (dynamicRNN_outputs_valid seq_max_len n_hidden B
              (map rowfn rows) seqlen)
    as (picked & Hpicked & Hplen & Hprow); [| exact HH | exact HI
                                            | exact Hvalid |].
  { split; [now rewrite length_map |].
    apply Forall_forall. intros o Ho. apply in_map_iff in Ho.
    destruct Ho as (r & <- & Hr). unfold rowfn. split.
    - unfold py_len. rewrite row_loop_length.
      assert (Hin : In (snd (fst r)) x).
      { rewrite <- Hxs. apply in_map_iff. now exists r. }
      exact (Hx _ Hin).
    - apply row_loop_width; [lia | exact Hcell]. }
  exists (map out_layer picked).
  split.
  - unfold dynamicRNN. rewrite Htm. cbn [rbind].
    destruct tm as [| y tm]; [cbn in HTm; lia |].
    assert (Hy : length y = B) by (now inversion Hall).
    unfold static_rnn. rewrite HL, Hy, Nat.eqb_refl. cbn [rbind].
    rewrite Houts.
    destruct outs as [| o outs]; [cbn in HoT; lia |].
    assert (Ho : length o = B) by (now inversion Hoall).
    cbn [tf_stack rbind tf_transpose10]. rewrite Ho, Hcols. cbn [rbind].
    rewrite Hpicked. reflexivity.
  - split; [now rewrite length_map |].
    intros b s t Hs Ht.
    assert (Hr : nth_error rows b = Some (t, s, zero_state)).
    { unfold rows. rewrite !nth_error_combine, Ht, Hs.
      rewrite nth_error_repeat; [reflexivity |].
      rewrite <- HB. apply nth_error_Some. congruence. }
    destruct (Hprow b (rowfn (t, s, zero_state)) t)
      as (picked_row & Hp & Hnth & _); [| exact Ht |].
    { rewrite nth_error_map, Hr. reflexivity. }
    rewrite nth_error_map, Hp. cbn [option_map]. do 2 f_equal.
    unfold rowfn in Hnth. cbn [fst snd] in Hnth.
    assert (Ht' : 1 <= t <= seq_max_len)
      by (apply Hrange; eapply nth_error_In, Ht).
    assert (Hslen : py_len s = seq_max_len)
      by (apply Hx; eapply nth_error_In, Hs).
    rewrite row_loop_prefix in Hnth by lia.
    replace (Z.to_nat (t - 1)) with (Z.to_nat t - 1)%nat in Hnth by lia.
    rewrite unroll_last in Hnth by (unfold py_len in Hslen; lia).
    congruence.
Qed.
End WholeDynamicRNNProofs.

Lemma dynamicRNN_unrolls_valid_prefix_witness :
  length scenario_x = 2%nat /\
  Forall (fun s => py_len s = 3) scenario_x /\
  (forall i st, py_len (fst (counting_cell i st)) = 2) /\
  0 < 2 /\ 1 <= 3 /\ int32_indexable 3 2 /\ valid_lengths 3 2 [2; 3] /\
  exists out,
    dynamicRNN 3 2 counting_cell 0 0 (fun r => r) scenario_x [2; 3]
    = Ok out /\
    length out = 2%nat /\
    forall b s t,
      nth_error scenario_x b = Some s -> nth_error [2; 3] b = Some t ->
      nth_error out b
      = Some (last (unroll counting_cell (firstn (Z.to_nat t) s) 0) []).
Proof.
  assert (H1 : length scenario_x = 2%nat) by reflexivity.
  assert (H2 : Forall (fun s => py_len s = 3) scenario_x)
    by (repeat constructor).
  assert (H3 : forall (i : list Z) (st : Z),
             py_len (fst (counting_cell i st)) = 2)
    by (intros; reflexivity).
  assert (H4 : 0 < 2) by lia.
  assert (H5 : 1 <= 3) by lia.
  assert (H6 : int32_indexable 3 2) by (unfold int32_indexable; lia).
  assert (H7 : valid_lengths 3 2 [2; 3]).
  { split; [reflexivity |]. repeat constructor; lia. }
  split; [exact H1 |]. split; [exact H2 |]. split; [exact H3 |].
  split; [exact H4 |]. split; [exact H5 |]. split; [exact H6 |].
  split; [exact H7 |].
  exact (dynamicRNN_unrolls_valid_prefix 3 2 counting_cell 0 0
           (fun r => r) 2 scenario_x [2; 3] H1 H2 H3 H4 H5 H6 H7).
Defined.
